(** * Advisory generation pipeline of the flight-delay dashboard

    A shallow embedding of

      - [pages/api/ai-advice.js]   (module [Server]: the Gemini cascade), and
      - [components/AIAdvisor.jsx] (module [Client]: the advisor component),

    together with the few JavaScript built-ins the two files lean on
    (module [JS]): truthiness, [String(v)], optional chaining,
    [JSON.stringify] and [encodeURIComponent]. *)

From Stdlib Require Import String Ascii List ZArith Bool Lia DecimalString.
Import ListNotations.
Open Scope string_scope.

Set Implicit Arguments.
Set Warnings "-register-all".

(* ================================================================== *)
(** ** JavaScript values and built-ins *)
(* ================================================================== *)

Module JS.

(** Line feed, the ["\n"] of the source. *)
Definition LF : string := String (ascii_of_nat 10) "".

(** Plain data, as [JSON.parse] or an object literal yields it.  Strings
    are byte strings (UTF-8).  A number carries its [Number::toString]
    rendering (["3"], ["0.4"], ["NaN"]): floating point itself is not
    modelled.  The fields of an object are listed in property enumeration
    order and have distinct keys.  No value is callable. *)
Inductive Value : Type :=
| VUndefined
| VNull
| VBool (b : bool)
| VNum (lit : string)
| VStr (s : string)
| VArr (items : list Value)
| VObj (fields : list (string * Value)).

(** What an awaited call or a built-in gives back: a value or an exception.
    An exception is carried by its message. *)
Inductive Outcome (A : Type) : Type :=
| Returns (a : A)
| Throws (e : string).
Arguments Returns {A} a.
Arguments Throws {A} e.

(** [ToBoolean]: [undefined], [null], [false], [0], [NaN] and [''] are
    falsy ([-0] renders as ["0"]). *)
Definition truthy (v : Value) : bool :=
  match v with
  | VUndefined | VNull => false
  | VBool b => b
  | VNum lit => negb (String.eqb lit "0" || String.eqb lit "NaN")
  | VStr s => negb (String.eqb s "")
  | VArr _ | VObj _ => true
  end.

(** [a || b]. *)
Definition or_else (a b : Value) : Value := if truthy a then a else b.

(** Truthiness of a string or [undefined], for [process.env.X]. *)
Definition truthy_env (e : option string) : bool :=
  match e with
  | Some s => negb (String.eqb s "")
  | None => false
  end.

Fixpoint lookup (k : string) (fields : list (string * Value)) : Value :=
  match fields with
  | [] => VUndefined
  | (k', v) :: rest => if String.eqb k k' then v else lookup k rest
  end.

Definition has_key (k : string) (fields : list (string * Value)) : bool :=
  existsb (fun kv => String.eqb k (fst kv)) fields.

(** [v.k] for the keys the two files read ([candidates], [content],
    [parts], [text], [provider], [error]), none of which is inherited from
    a prototype: own property of an object, [undefined] on any other
    value, [TypeError] on [undefined] and [null]. *)
Definition get (v : Value) (k : string) : Outcome Value :=
  match v with
  | VUndefined | VNull => Throws "TypeError"
  | VObj fields => Returns (lookup k fields)
  | _ => Returns VUndefined
  end.

(** [v?.k]. *)
Definition opt_get (v : Value) (k : string) : Value :=
  match v with
  | VObj fields => lookup k fields
  | _ => VUndefined
  end.

(** [v?.[0]]: first element of an array, first character of a string,
    property ["0"] of an object. *)
Definition opt_first (v : Value) : Value :=
  match v with
  | VArr (x :: _) => x
  | VStr (String c _) => VStr (String c "")
  | VObj fields => lookup "0" fields
  | _ => VUndefined
  end.

Definition join (sep : string) (l : list string) : string :=
  String.concat sep l.

(** [String(v)].  An array joins its elements with commas, [undefined] and
    [null] elements as the empty string.  An object is ["[object Object]"],
    unless it has an own (not callable) [toString], where
    [OrdinaryToPrimitive] ends in a [TypeError]. *)
Fixpoint to_String (v : Value) : Outcome string :=
  match v with
  | VUndefined => Returns "undefined"
  | VNull => Returns "null"
  | VBool true => Returns "true"
  | VBool false => Returns "false"
  | VNum lit => Returns lit
  | VStr s => Returns s
  | VArr items =>
      let elems :=
        (fix elems (l : list Value) : Outcome (list string) :=
           match l with
           | [] => Returns []
           | x :: rest =>
               let sx := match x with
                         | VUndefined | VNull => Returns ""
                         | _ => to_String x
                         end in
               match sx, elems rest with
               | Returns s, Returns ss => Returns (s :: ss)
               | Throws e, _ => Throws e
               | _, Throws e => Throws e
               end
           end) in
      match elems items with
      | Returns ss => Returns (join "," ss)
      | Throws e => Throws e
      end
  | VObj fields =>
      if has_key "toString" fields then Throws "TypeError"
      else Returns "[object Object]"
  end.

(** *** [JSON.stringify(value, null, gap)] *)

Definition hex_digit (upper : bool) (n : nat) : ascii :=
  if Nat.ltb n 10 then ascii_of_nat (48 + n)
  else ascii_of_nat ((if upper then 55 else 87) + n).

Definition hex_byte (upper : bool) (c : ascii) : string :=
  let n := nat_of_ascii c in
  String (hex_digit upper (n / 16)) (String (hex_digit upper (n mod 16)) "").

(** The double quote and the backslash. *)
Definition DQ : string := String (ascii_of_nat 34) "".
Definition BS : string := String (ascii_of_nat 92) "".

(** One character of [QuoteJSONString]: the short escapes, [\u00xx] for the
    other control characters, the character itself otherwise. *)
Definition quote_char (c : ascii) : string :=
  let n := nat_of_ascii c in
  if Nat.eqb n 8 then BS ++ "b"
  else if Nat.eqb n 9 then BS ++ "t"
  else if Nat.eqb n 10 then BS ++ "n"
  else if Nat.eqb n 12 then BS ++ "f"
  else if Nat.eqb n 13 then BS ++ "r"
  else if Nat.eqb n 34 then BS ++ DQ
  else if Nat.eqb n 92 then BS ++ BS
  else if Nat.ltb n 32 then BS ++ "u00" ++ hex_byte false c
  else String c "".

Fixpoint quote_body (s : string) : string :=
  match s with
  | EmptyString => ""
  | String c rest => quote_char c ++ quote_body rest
  end.

Definition QuoteJSONString (s : string) : string := DQ ++ quote_body s ++ DQ.

Definition is_empty (s : string) : bool := String.eqb s "".

(** Brackets around the serialized members, on one line without a gap and
    one member per line with it. *)
Definition wrap (gap stepback : string) (open close : string)
    (partial : list string) : string :=
  match partial with
  | [] => open ++ close
  | _ =>
      if is_empty gap then open ++ join "," partial ++ close
      else
        let indent := stepback ++ gap in
        open ++ LF ++ indent ++ join ("," ++ LF ++ indent) partial
             ++ LF ++ stepback ++ close
  end.

(** [SerializeJSONProperty]: [None] is [undefined].  A number that is not
    finite serializes as [null]; in an array [undefined] does too, in an
    object the field is left out. *)
Fixpoint SerializeJSONProperty (gap indent : string) (v : Value)
    : option string :=
  match v with
  | VUndefined => None
  | VNull => Some "null"
  | VBool true => Some "true"
  | VBool false => Some "false"
  | VNum lit =>
      if String.eqb lit "NaN" || String.eqb lit "Infinity"
         || String.eqb lit "-Infinity"
      then Some "null" else Some lit
  | VStr s => Some (QuoteJSONString s)
  | VArr items =>
      let partial :=
        (fix elems (l : list Value) : list string :=
           match l with
           | [] => []
           | x :: rest =>
               match SerializeJSONProperty gap (indent ++ gap) x with
               | Some sx => sx
               | None => "null"
               end :: elems rest
           end) items in
      Some (wrap gap indent "[" "]" partial)
  | VObj fields =>
      let partial :=
        (fix members (l : list (string * Value)) : list string :=
           match l with
           | [] => []
           | (k, x) :: rest =>
               match SerializeJSONProperty gap (indent ++ gap) x with
               | Some sx =>
                   (QuoteJSONString k ++ ":"
                      ++ (if is_empty gap then "" else " ") ++ sx)
                     :: members rest
               | None => members rest
               end
           end) fields in
      Some (wrap gap indent "{" "}" partial)
  end.

(** [JSON.stringify(v)] is [stringify "" v]; [JSON.stringify(v, null, 2)]
    is [stringify "  " v]. *)
Definition stringify (gap : string) (v : Value) : option string :=
  SerializeJSONProperty gap "" v.

(** A template literal's [${...}] around a string or [undefined]. *)
Definition interpolate (o : option string) : string :=
  match o with
  | Some s => s
  | None => "undefined"
  end.

(** *** [encodeURIComponent] *)

Definition in_range (lo hi n : nat) : bool := Nat.leb lo n && Nat.leb n hi.

(** Letters, digits and [- _ . ! ~ * ' ( )] stay as they are. *)
Definition uri_unreserved (c : ascii) : bool :=
  let n := nat_of_ascii c in
  in_range 65 90 n || in_range 97 122 n || in_range 48 57 n
  || existsb (Nat.eqb n) [45; 95; 46; 33; 126; 42; 39; 40; 41].

(** Every other byte of the UTF-8 encoding becomes [%XX]. *)
Fixpoint encodeURIComponent (s : string) : string :=
  match s with
  | EmptyString => ""
  | String c rest =>
      (if uri_unreserved c then String c "" else "%" ++ hex_byte true c)
        ++ encodeURIComponent rest
  end.

(** [s.startsWith(sub)]. *)
Fixpoint startsWith (s sub : string) : bool :=
  match sub, s with
  | EmptyString, _ => true
  | String _ _, EmptyString => false
  | String a sub', String b s' => Ascii.eqb a b && startsWith s' sub'
  end.


(** [Array.from(new Set(l))]: the elements of [l] in the order of their
    first occurrence. *)
Fixpoint Set_add_all (seen l : list string) : list string :=
  match l with
  | [] => seen
  | x :: rest =>
      Set_add_all (if existsb (String.eqb x) seen then seen else (seen ++ [x])%list)
                  rest
  end.

Definition Array_from_Set (l : list string) : list string := Set_add_all [] l.

(** Decimal rendering of an integer, for [${r.status}]. *)
Definition show_int (z : Z) : string := NilZero.string_of_int (Z.to_int z).

(** Every character of [s] passes [p]. *)
Fixpoint every (p : ascii -> bool) (s : string) : bool :=
  match s with
  | EmptyString => true
  | String c rest => p c && every p rest
  end.

(** What [encodeURIComponent] may put out: the characters it leaves as
    they are and the percent sign of an escape. *)
Definition uri_safe (c : ascii) : bool :=
  uri_unreserved c || Ascii.eqb c "%"%char.

(** *** [fetch] *)

(** [fetch(url, { method, headers, body })]; [None] for [body] is
    [undefined]. *)
Record FetchRequest : Type := {
  f_url : string;
  f_method : string;
  f_headers : list (string * string);
  f_body : option string
}.

(** The [Response] a fetch resolves with: [r.ok], [r.status], and what
    awaiting [r.json()] and [r.text()] gives. *)
Record FetchResponse : Type := {
  r_ok : bool;
  r_status : Z;
  r_json : Outcome Value;
  r_text : Outcome string
}.

End JS.

(* ================================================================== *)
(** ** pages/api/ai-advice.js *)
(* ================================================================== *)

Module Server.
Import JS.

(** [process.env]: a variable is a string or [undefined]. *)
Record Env : Type := {
  GEMINI_API_KEY : option string;
  GEMINI_MODEL : option string
}.

(** [req]: [body] is what the body parser leaves, any JSON value, or
    [VUndefined] when there is none. *)
Record Request : Type := {
  method : string;
  body : Value
}.

(** What [res.json] is given. *)
Inductive Payload : Type :=
| ErrorPayload (error : string)
| AdvisoryPayload (text : Value) (provider : string)
                  (errorInfo : option string).

(** [res.status(code).json(payload)]. *)
Record Response : Type := {
  status : Z;
  json : Payload
}.

(** The object literal behind a payload, as the caller's [r.json()] reads
    it back. *)
Definition payload_value (p : Payload) : Value :=
  match p with
  | ErrorPayload error => VObj [("error", VStr error)]
  | AdvisoryPayload text provider None =>
      VObj [("text", text); ("provider", VStr provider)]
  | AdvisoryPayload text provider (Some errorInfo) =>
      VObj [("text", text); ("provider", VStr provider);
            ("errorInfo", VStr errorInfo)]
  end.

(** The provider calls issued so far, oldest first. *)
Definition Log : Type := list FetchRequest.

(** The remote provider: what [fetch] resolves or rejects with, given the
    calls that came before. *)
Definition Fetch : Type := Log -> FetchRequest -> Outcome FetchResponse.

(** *** Awaited computations: a log of provider calls and exceptions *)

Definition M (A : Type) : Type := Log -> Outcome A * Log.

Definition ret {A} (a : A) : M A := fun log => (Returns a, log).

Definition throw {A} (e : string) : M A := fun log => (Throws e, log).

Definition bind {A B} (m : M A) (k : A -> M B) : M B :=
  fun log =>
    match m log with
    | (Returns a, log') => k a log'
    | (Throws e, log') => (Throws e, log')
    end.

Definition await {A} (o : Outcome A) : M A := fun log => (o, log).

Definition try_catch {A} (block : M A) (catch : string -> M A) : M A :=
  fun log =>
    match block log with
    | (Returns a, log') => (Returns a, log')
    | (Throws e, log') => catch e log'
    end.

Declare Scope js_scope.
Delimit Scope js_scope with js.
Notation "x <- m ;; k" := (bind m (fun x => k))
  (at level 61, m at next level, right associativity) : js_scope.

(** *** The prompt, lines 17-24 *)

Definition prompt (mode language advice : string) (context : Value)
    : string :=
  if String.eqb mode "translate" then
    "Translate the following advisory to " ++ language
      ++ " using clear, friendly travel English localized to the target language."
      ++ LF ++ LF ++ advice
  else if String.eqb mode "rewrite" then
    "Rewrite the following advisory to be more concise while preserving all key recommendations. Limit to 120 words."
      ++ LF ++ LF ++ advice
  else
    "You are a concise travel assistant integrated in a flight delay dashboard. Given the flight context, weather and predicted delays, generate a short actionable advisory for the traveler. Prefer bullet points. Avoid hedging. Never invent data. Keep to ~120-180 words. Include “What to do next” with 2-3 steps."
      ++ LF ++ LF ++ "JSON Context:" ++ LF
      ++ interpolate (stringify "  " context).

(** *** The three stubs *)

Definition stub_no_key : string :=
  join LF [
    "DEMO ADVISORY (no GEMINI_API_KEY set):";
    "- Allow extra time at the airport; weather may introduce minor gate/ground delays.";
    "- Pack essentials in carry-on and consider earlier check-in.";
    "What to do next:";
    "1) Monitor your airline app for gate changes.";
    "2) If connecting, choose longer layover options if possible.";
    "3) Have a backup ground transport plan at destination."
  ].

Definition stub_unavailable : string :=
  join LF [
    "DEMO ADVISORY (Gemini endpoints unavailable):";
    "- Expect minor operational variability; build buffer into your plans.";
    "- Keep essentials handy and watch for gate updates.";
    "What to do next:";
    "1) Enable Generative Language API and verify your API key permissions.";
    "2) Try model=`GEMINI_MODEL=gemini-1.5-flash` with API version v1beta.";
    "3) Re-run — the app will use on-device AI when available."
  ].

Definition stub_on_error : string :=
  join LF [
    "DEMO ADVISORY (fallback on error):";
    "- Some disruptions possible; arrive early and monitor your airline app.";
    "What to do next:";
    "1) Consider flexible rebooking options.";
    "2) Prepare backup ground transport at destination."
  ].

(** *** The candidates, lines 40-53 *)

Definition base : string := "https://generativelanguage.googleapis.com".

Definition versions : list string := ["v1beta"; "v1"].

(** [process.env.GEMINI_MODEL || 'gemini-1.5-flash']. *)
Definition preferred (env : Env) : string :=
  match GEMINI_MODEL env with
  | Some m => if is_empty m then "gemini-1.5-flash" else m
  | None => "gemini-1.5-flash"
  end.

Definition models (env : Env) : list string :=
  Array_from_Set [
    preferred env;
    preferred env ++ "-latest";
    preferred env ++ "-002";
    "gemini-1.5-flash-8b";
    "gemini-1.5-flash-8b-latest";
    "gemini-1.5-flash";
    "gemini-1.5-flash-latest";
    "gemini-1.5-pro"
  ].

(** The (version, model) pairs in the order the two nested loops visit
    them. *)
Definition candidates (env : Env) : list (string * string) :=
  flat_map (fun ver => map (pair ver) (models env)) versions.

(** *** The cascade, lines 55-87 *)

(** [data?.candidates?.[0]?.content?.parts?.[0]?.text]. *)
Definition extract (data : Value) : Value :=
  opt_get
    (opt_first
       (opt_get (opt_get (opt_first (opt_get data "candidates")) "content")
                "parts"))
    "text".

(** The call for one candidate, lines 58-71. *)
Definition request_for (apiKey prompt : string) (c : string * string)
    : FetchRequest :=
  let (ver, model) := c in
  {| f_url := base ++ "/" ++ ver ++ "/models/" ++ model
                ++ ":generateContent?key=" ++ encodeURIComponent apiKey;
     f_method := "POST";
     f_headers := [("Content-Type", "application/json")];
     f_body :=
       stringify ""
         (VObj [("contents",
                 VArr [VObj [("role", VStr "user");
                             ("parts", VArr [VObj [("text", VStr prompt)]])]])])
  |}.

(** How a loop ends: the handler has returned, or the loop is exhausted
    and [lastErrText] is what it is by then.  A [throw] is the monad's. *)
Inductive Flow : Type :=
| Return (res : Response)
| Exhausted (lastErrText : string).

Definition or_default (o : option string) (d : string) : string :=
  match o with
  | Some s => s
  | None => d
  end.

(** A destructuring default, [{ k = d }]: [d] stands in for [undefined]
    only. *)
Definition or_undefined (v d : Value) : Value :=
  match v with
  | VUndefined => d
  | _ => v
  end.

(** One name of [const { k = d } = req.body || {}], line 13: the own
    property [k] of an object, [d] when it is absent or the body is not an
    object. *)
Definition field (req : Request) (k : string) (d : Value) : Value :=
  or_undefined (opt_get (or_else (body req) (VObj [])) k) d.

(** [v === s] for a string literal [s]. *)
Definition is_string (v : Value) (s : string) : bool :=
  match v with
  | VStr x => String.eqb x s
  | _ => false
  end.

(** Lines 13-24: the destructuring of [req.body || {}] with its defaults,
    and the prompt built from it.  The fields are any values: the template
    literal of line 19 coerces [language], then [advice], as [String]
    does, the [+] of line 21 coerces [advice], and each throws where
    [String] throws; line 23 serializes [context].  A branch reads no
    other field ([prompt] is given the default in its place). *)
Definition prompt_of (req : Request) : Outcome string :=
  let mode := field req "mode" (VStr "advice") in
  let language := field req "language" (VStr "en") in
  let advice := field req "advice" (VStr "") in
  let context := field req "context" (VObj []) in
  if is_string mode "translate" then
    match to_String language with
    | Throws e => Throws e
    | Returns language =>
        match to_String advice with
        | Throws e => Throws e
        | Returns advice =>
            Returns (prompt "translate" language advice context)
        end
    end
  else if is_string mode "rewrite" then
    match to_String advice with
    | Throws e => Throws e
    | Returns advice => Returns (prompt "rewrite" "en" advice context)
    end
  else Returns (prompt "advice" "en" "" context).

Section Handler.

Variable env : Env.
Variable fetch : Fetch.

Definition await_fetch (rq : FetchRequest) : M FetchResponse :=
  fun log => (fetch log rq, (log ++ [rq])%list).

Local Open Scope js_scope.

(** The inner loop, [for (const model of models)], for one [ver]. *)
Fixpoint for_models (apiKey prompt ver : string) (ms : list string)
    (lastErrText : string) : M Flow :=
  match ms with
  | [] => ret (Exhausted lastErrText)
  | model :: rest =>
      r <- await_fetch (request_for apiKey prompt (ver, model)) ;;
      if r_ok r then
        data <- await (r_json r) ;;
        let text := or_else (extract data) (VStr "") in
        ret (Return {| status := 200;
                       json := AdvisoryPayload
                                 text ("gemini:" ++ ver ++ ":" ++ model) None |})
      else
        t <- await (r_text r) ;;
        let lastErrText := "(" ++ ver ++ "/" ++ model ++ ") " ++ t in
        if (r_status r >=? 500)%Z then
          throw ("Gemini API server error " ++ show_int (r_status r)
                   ++ ": " ++ t)
        else for_models apiKey prompt ver rest lastErrText
  end.

(** The outer loop, [for (const ver of versions)]. *)
Fixpoint for_versions (apiKey prompt : string) (vs ms : list string)
    (lastErrText : string) : M Flow :=
  match vs with
  | [] => ret (Exhausted lastErrText)
  | ver :: rest =>
      fl <- for_models apiKey prompt ver ms lastErrText ;;
      match fl with
      | Return res => ret (Return res)
      | Exhausted lastErrText => for_versions apiKey prompt rest ms lastErrText
      end
  end.

(** The two loops as one loop over the (version, model) pairs, each pair
    going through the inner loop's body once;
    [ServerFacts.for_versions_flat] shows it is the same computation. *)
Fixpoint for_candidates (apiKey prompt : string)
    (cs : list (string * string)) (lastErrText : string) : M Flow :=
  match cs with
  | [] => ret (Exhausted lastErrText)
  | (ver, model) :: rest =>
      fl <- for_models apiKey prompt ver [model] lastErrText ;;
      match fl with
      | Return res => ret (Return res)
      | Exhausted lastErrText =>
          for_candidates apiKey prompt rest lastErrText
      end
  end.

(** *** [handler] *)

Definition handler (req : Request) : M Response :=
  if negb (String.eqb (method req) "POST") then
    ret {| status := 405; json := ErrorPayload "Method not allowed" |}
  else
    let apiKey := GEMINI_API_KEY env in
    try_catch
      (prompt <- await (prompt_of req) ;;
       if negb (truthy_env apiKey) then
         ret {| status := 200;
                json := AdvisoryPayload (VStr stub_no_key) "stub" None |}
       else
         fl <- for_versions (or_default apiKey "") prompt versions (models env)
                            "" ;;
         match fl with
         | Return res => ret res
         | Exhausted lastErrText =>
             ret {| status := 200;
                    json := AdvisoryPayload (VStr stub_unavailable)
                              "stub-fallback" (Some lastErrText) |}
         end)
      (fun err =>
         ret {| status := 200;
                json := AdvisoryPayload (VStr stub_on_error) "stub-error"
                          None |}).

End Handler.

(** A candidate-specific failure: the call resolves, [r.ok] is false, the
    status is below 500 and [r.text()] resolves. *)
Definition fails_retryably (o : Outcome FetchResponse) : Prop :=
  exists r t,
    o = Returns r /\ r_ok r = false /\ (r_status r < 500)%Z
    /\ r_text r = Returns t.

(** Every candidate of [cs] fails that way when its turn comes, the calls
    before it being those of the log and of the candidates before it. *)
Definition all_fail_retryably (fetch : Fetch) (apiKey prompt : string)
    (log : Log) (cs : list (string * string)) : Prop :=
  forall pre c post,
    cs = (pre ++ c :: post)%list ->
    fails_retryably
      (fetch (log ++ map (request_for apiKey prompt) pre)%list
             (request_for apiKey prompt c)).

(** The provider tag of a candidate's answer. *)
Definition provider_tag (c : string * string) : string :=
  "gemini:" ++ fst c ++ ":" ++ snd c.

(** What [lastErrText] holds after the candidates [pre] have failed one
    after the other: the text recorded for the last of them. *)
Definition recorded_after (fetch : Fetch) (apiKey prompt : string)
    (last : string) (log : Log) (pre : list (string * string))
    (last' : string) : Prop :=
  (pre = [] -> last' = last)
  /\ (forall pre0 c, pre = (pre0 ++ [c])%list ->
        exists r t,
          fetch (log ++ map (request_for apiKey prompt) pre0)%list
                (request_for apiKey prompt c) = Returns r
          /\ r_text r = Returns t
          /\ last' = "(" ++ fst c ++ "/" ++ snd c ++ ") " ++ t).

(** A cascade result never carries text that extraction did not yield:
    stated for one request, refuted in [ServerFacts]. *)
Definition success_exit_has_text (env : Env) (fetch : Fetch) (req : Request)
    : Prop :=
  forall text provider errorInfo log',
    handler env fetch req []
    = (Returns {| status := 200;
                  json := AdvisoryPayload text provider errorInfo |}, log') ->
    startsWith provider "gemini:" = true ->
    truthy text = true.

(** *** The ways an attempt ends the cascade, and the answer's shape *)

(** An attempt ends the cascade with the exception [e]: the call rejects,
    the body of the response cannot be read ([r.json()] of a successful
    one, [r.text()] of a failed one), or the failed status is 500 or
    more. *)
Definition aborts_with (o : Outcome FetchResponse) (e : string) : Prop :=
  o = Throws e
  \/ exists r,
       o = Returns r
       /\ ((r_ok r = true /\ r_json r = Throws e)
           \/ (r_ok r = false /\ r_text r = Throws e)
           \/ (r_ok r = false
               /\ exists t,
                    r_text r = Returns t
                    /\ (r_status r >= 500)%Z
                    /\ e = "Gemini API server error "
                             ++ show_int (r_status r) ++ ": " ++ t)).

(** [data] has the provider's answer shape, with [text] as the [text] of
    the first part of the first candidate; more candidates, more parts and
    more fields may be there. *)
Definition first_part_text (data text : Value) : Prop :=
  exists c0 cs p0 ps,
    opt_get data "candidates" = VArr (c0 :: cs)
    /\ opt_get (opt_get c0 "content") "parts" = VArr (p0 :: ps)
    /\ opt_get p0 "text" = text.

(** What the caller's [fetch] resolves with for
    [res.status(code).json(payload)]: [r.ok] for a status from 200 to 299,
    the payload as JSON. *)
Definition response_of (res : Response) : FetchResponse :=
  {| r_ok := (200 <=? status res)%Z && (status res <=? 299)%Z;
     r_status := status res;
     r_json := Returns (payload_value (json res));
     r_text := Returns (interpolate (stringify "" (payload_value (json res))))
  |}.

End Server.

(* ================================================================== *)
(** ** components/AIAdvisor.jsx *)
(* ================================================================== *)

Module Client.
Import JS.

(** *** The host: [window.ai] and the [/api/ai-advice] route *)

(** The argument of [createTextSession]; [temperature] is carried by its
    decimal literal. *)
Record SessionOptions : Type := {
  o_systemPrompt : string;
  o_temperature : string;
  o_topK : Z
}.

(** The calls that leave the component. *)
Inductive Call : Type :=
| CanCreateTextSession
| CreateTextSession (opts : SessionOptions)
| SessionPrompt (text : string)
| FetchCall (rq : FetchRequest).

(** The calls issued so far, oldest first. *)
Definition Log : Type := list Call.

(** A text session: what awaiting [session.prompt(text)] gives, after the
    calls so far. *)
Record Session : Type := {
  session_prompt : Log -> string -> Outcome Value
}.

(** [window.ai]; a member that is [None] is [undefined], one that is there
    is a function.  [canCreateTextSession] answers with a string. *)
Record AI : Type := {
  canCreateTextSession : option (Log -> Outcome string);
  createTextSession : option (Log -> SessionOptions -> Outcome Session)
}.

(** [window]; [None] for [ai] is a falsy [window.ai]. *)
Record Window : Type := {
  ai : option AI
}.

(** The component's props.  [date] is a [Date], given by what its
    [toISOString()] does, or another value. *)
Inductive DateProp : Type :=
| DateObject (toISOString : Outcome string)
| NotDate (v : Value).

Record Props : Type := {
  origin : Value;
  destination : Value;
  date : DateProp;
  departureTime : Value;
  arrivalTime : Value;
  originWeather : Value;
  destWeather : Value;
  prediction : Value
}.

(** The five [useState] cells; [None] for [aiStatus] is [null]. *)
Record State : Type := {
  advice : string;
  loading : bool;
  language : string;
  provider : Value;
  aiStatus : option string
}.

Definition initial : State :=
  {| advice := ""; loading := false; language := "en"; provider := VStr "";
     aiStatus := None |}.

(** *** Awaited computations over the call log and the state cells *)

Definition World : Type := (Log * State)%type.

Definition M (A : Type) : Type := World -> Outcome A * World.

Definition ret {A} (a : A) : M A := fun w => (Returns a, w).

Definition throw {A} (e : string) : M A := fun w => (Throws e, w).

Definition bind {A B} (m : M A) (k : A -> M B) : M B :=
  fun w =>
    match m w with
    | (Returns a, w') => k a w'
    | (Throws e, w') => (Throws e, w')
    end.

Definition await {A} (o : Outcome A) : M A := fun w => (o, w).

(** Calling into the host: the callee sees the calls made before. *)
Definition call {A} (c : Call) (f : Log -> Outcome A) : M A :=
  fun w => (f (fst w), ((fst w ++ [c])%list, snd w)).

Definition try_catch {A} (block : M A) (catch : string -> M A) : M A :=
  fun w =>
    match block w with
    | (Returns a, w') => (Returns a, w')
    | (Throws e, w') => catch e w'
    end.

Definition try_finally {A} (block : M A) (finally : M unit) : M A :=
  fun w =>
    match block w with
    | (o, w') =>
        match finally w' with
        | (Returns _, w'') => (o, w'')
        | (Throws e, w'') => (Throws e, w'')
        end
    end.

Definition update (f : State -> State) : M unit :=
  fun w => (Returns tt, (fst w, f (snd w))).

Definition setAdvice (s : string) : M unit :=
  update (fun st => {| advice := s; loading := loading st;
                       language := language st; provider := provider st;
                       aiStatus := aiStatus st |}).

Definition setLoading (b : bool) : M unit :=
  update (fun st => {| advice := advice st; loading := b;
                       language := language st; provider := provider st;
                       aiStatus := aiStatus st |}).

Definition setLanguage (l : string) : M unit :=
  update (fun st => {| advice := advice st; loading := loading st;
                       language := l; provider := provider st;
                       aiStatus := aiStatus st |}).

Definition setProvider (p : Value) : M unit :=
  update (fun st => {| advice := advice st; loading := loading st;
                       language := language st; provider := p;
                       aiStatus := aiStatus st |}).

Definition setAiStatus (a : option string) : M unit :=
  update (fun st => {| advice := advice st; loading := loading st;
                       language := language st; provider := provider st;
                       aiStatus := a |}).

Declare Scope ui_scope.
Delimit Scope ui_scope with ui.
Notation "x <- m ;; k" := (bind m (fun x => k))
  (at level 61, m at next level, right associativity) : ui_scope.
Notation "m ;; k" := (bind m (fun _ => k))
  (at level 61, right associativity) : ui_scope.

(** *** The component *)

Definition systemPrompt : string :=
  join " " [
    "You are a concise travel assistant integrated in a flight delay dashboard.";
    "Given the flight context, weather and predicted delays, generate a short actionable advisory for the traveler.";
    "Prefer bullet points. Avoid hedging. Never invent data.";
    "Keep to ~120-180 words. Include “What to do next” with 2-3 steps."
  ].

(** [s.split('T')[0]]: what stands before the first [T]. *)
Fixpoint before_T (s : string) : string :=
  match s with
  | EmptyString => ""
  | String c rest =>
      if Ascii.eqb c "T"%char then "" else String c (before_T rest)
  end.

(** The prompt of the on-device path, lines 75-82. *)
Definition prompt (mode language advice : string) (ctx : Value) : string :=
  if String.eqb mode "translate" then
    "Translate the following advisory to " ++ language
      ++ " using clear, friendly travel English localized to the target language:"
      ++ LF ++ LF ++ advice
  else if String.eqb mode "rewrite" then
    "Rewrite the following advisory to be more concise while preserving all key recommendations. Limit to 120 words."
      ++ LF ++ LF ++ advice
  else
    "Create a traveler advisory for this flight context. Output plain text."
      ++ LF ++ LF ++ "JSON Context:" ++ LF
      ++ interpolate (stringify "  " ctx).

(** The call to the server route, lines 94-98. *)
Definition advice_request (mode language advice : string) (ctx : Value)
    : FetchRequest :=
  {| f_url := "/api/ai-advice";
     f_method := "POST";
     f_headers := [("Content-Type", "application/json")];
     f_body :=
       stringify ""
         (VObj [("mode", VStr mode); ("language", VStr language);
                ("advice", VStr advice); ("context", ctx)]) |}.

Section Component.

Variable window : option Window.
Variable fetch : Log -> FetchRequest -> Outcome FetchResponse.
Variable props : Props.

Local Open Scope ui_scope.

(** [window.ai], when [window] is defined and [window.ai] is truthy. *)
Definition window_ai : option AI :=
  match window with
  | Some w => ai w
  | None => None
  end.

Definition supportsPromptAPI : bool :=
  match window_ai with
  | Some a =>
      match createTextSession a with
      | Some _ => true
      | None => false
      end
  | None => false
  end.

(** The effect run on mount, lines 26-41. *)
Definition checkAI : M unit :=
  match window with
  | None => ret tt
  | Some w =>
      match ai w with
      | None => setAiStatus (Some "unavailable")
      | Some a =>
          try_catch
            (status <- match canCreateTextSession a with
                       | Some f => call CanCreateTextSession f
                       | None => throw "TypeError"
                       end ;;
             setAiStatus (Some status))
            (fun e => setAiStatus (Some "error"))
      end
  end.

Definition buildContext : Outcome Value :=
  let d := match date props with
           | DateObject iso =>
               match iso with
               | Returns s => Returns (before_T s)
               | Throws e => Throws e
               end
           | NotDate v => to_String v
           end in
  match d with
  | Throws e => Throws e
  | Returns d =>
      Returns
        (VObj [
           ("flight",
            VObj [("origin", origin props);
                  ("destination", destination props);
                  ("date", VStr d);
                  ("departureTime", departureTime props);
                  ("arrivalTime", arrivalTime props)]);
           ("weather",
            VObj [("origin", originWeather props);
                  ("destination", destWeather props)]);
           ("prediction", or_else (prediction props) VNull)])
  end.

(** [window.ai?.canCreateTextSession?.()]: [None] is [undefined]. *)
Definition query_readiness : M (option string) :=
  match window_ai with
  | Some a =>
      match canCreateTextSession a with
      | Some f => can <- call CanCreateTextSession f ;; ret (Some can)
      | None => ret None
      end
  | None => ret None
  end.

(** [window.ai.createTextSession(opts)]. *)
Definition open_session (opts : SessionOptions) : M Session :=
  match window_ai with
  | Some a =>
      match createTextSession a with
      | Some f => call (CreateTextSession opts) (fun log => f log opts)
      | None => throw "TypeError"
      end
  | None => throw "TypeError"
  end.

Definition is_ready (can : option string) : bool :=
  match can with
  | Some s => String.eqb s "readily" || String.eqb s "after-download"
  | None => false
  end.

(** The argument of [createTextSession], lines 68-72. *)
Definition session_options (mode : string) : SessionOptions :=
  {| o_systemPrompt := systemPrompt;
     o_temperature := if String.eqb mode "translate" then "0.2" else "0.4";
     o_topK := 40 |}.

(** The on-device branch, lines 65-89: [true] when it has returned from
    [generate], [false] when control goes on to the server fallback. *)
Definition on_device (mode language advice : string) : M bool :=
  if supportsPromptAPI then
    can <- query_readiness ;;
    if is_ready can then
      session <- open_session (session_options mode) ;;
      ctx <- await buildContext ;;
      let prompt := prompt mode language advice ctx in
      output <- call (SessionPrompt prompt)
                     (fun log => session_prompt session log prompt) ;;
      text <- await (to_String (or_else output (VStr ""))) ;;
      setAdvice text ;;
      setProvider (VStr "on-device (Gemini Nano)") ;;
      ret true
    else ret false
  else ret false.

(** The server fallback, lines 91-104. *)
Definition server_fallback (mode language advice : string) : M unit :=
  ctx <- await buildContext ;;
  let rq := advice_request mode language advice ctx in
  r <- call (FetchCall rq) (fun log => fetch log rq) ;;
  j <- await (r_json r) ;;
  if negb (r_ok r) then
    message <- await (to_String (or_else (opt_get j "error")
                                         (VStr "AI advice failed"))) ;;
    throw message
  else
    text <- await (get j "text") ;;
    text <- await (to_String (or_else text (VStr ""))) ;;
    setAdvice text ;;
    provider <- await (get j "provider") ;;
    setProvider (or_else provider (VStr "server")).

(** The text of the [catch] block. *)
Definition unable_text : string :=
  "Unable to generate advisory (both Built-in AI and fallback failed).".

(** [generate], lines 62-112.  [advice] and [language] are those of the
    render the callback was made in. *)
Definition generate (mode : string) : M unit :=
  fun w =>
    let advice := advice (snd w) in
    let language := language (snd w) in
    (setLoading true ;;
     try_finally
       (try_catch
          (returned <- on_device mode language advice ;;
           if returned : bool then ret tt
           else server_fallback mode language advice)
          (fun err =>
             setAdvice unable_text ;;
             setProvider (VStr "error")))
       (setLoading false)) w.

(** *** The three ways an action ends

    Each is stated for an action started with the calls [log] behind it
    and the state [st]; [calls] are the calls the action adds and [st'] the
    state it leaves. *)

(** The readiness query of an action: one call when the Prompt API is
    supported and [canCreateTextSession] is there, none otherwise. *)
Definition readiness_calls : Log :=
  match window_ai with
  | Some a =>
      match createTextSession a, canCreateTextSession a with
      | Some _, Some _ => [CanCreateTextSession]
      | _, _ => []
      end
  | None => []
  end.

(** The on-device path ran to its end (line 87): the session's output,
    coerced by [String(output || '')], is the advisory. *)
Definition on_device_exit (mode : string) (log : Log) (st : State)
    (calls : Log) (st' : State) : Prop :=
  exists a can create answer session ctx output,
    window_ai = Some a
    /\ canCreateTextSession a = Some can
    /\ createTextSession a = Some create
    /\ can log = Returns answer
    /\ is_ready (Some answer) = true
    /\ create (log ++ [CanCreateTextSession])%list (session_options mode)
       = Returns session
    /\ buildContext = Returns ctx
    /\ session_prompt session
         (log ++ [CanCreateTextSession;
                  CreateTextSession (session_options mode)])%list
         (prompt mode (language st) (advice st) ctx) = Returns output
    /\ to_String (or_else output (VStr "")) = Returns (advice st')
    /\ provider st' = VStr "on-device (Gemini Nano)"
    /\ calls = [CanCreateTextSession;
                CreateTextSession (session_options mode);
                SessionPrompt (prompt mode (language st) (advice st) ctx)].

(** The server fallback ran to its end (line 104): the route's [text],
    coerced by [String(j.text || '')], is the advisory. *)
Definition remote_exit (mode : string) (log : Log) (st : State)
    (calls : Log) (st' : State) : Prop :=
  exists ctx r j text provider',
    buildContext = Returns ctx
    /\ calls = (readiness_calls
                ++ [FetchCall (advice_request mode (language st) (advice st)
                                              ctx)])%list
    /\ fetch (log ++ readiness_calls)%list
             (advice_request mode (language st) (advice st) ctx) = Returns r
    /\ r_ok r = true
    /\ r_json r = Returns j
    /\ get j "text" = Returns text
    /\ to_String (or_else text (VStr "")) = Returns (advice st')
    /\ get j "provider" = Returns provider'
    /\ provider st' = or_else provider' (VStr "server").

(** The [catch] block ran. *)
Definition error_exit (st' : State) : Prop :=
  advice st' = unable_text /\ provider st' = VStr "error".

(** *** A page session: mount, then the user's clicks *)

Inductive Event : Type :=
| ClickGenerate
| ClickTranslate
| ClickRewrite
| SelectLanguage (value : string).

(** The buttons' [disabled] attributes and [onClick] handlers, and the
    select's [onChange]. *)
Definition dispatch (ev : Event) : M unit :=
  fun w =>
    let st := snd w in
    match ev with
    | ClickGenerate =>
        if loading st then ret tt w else generate "advice" w
    | ClickTranslate =>
        if loading st || is_empty (advice st) then ret tt w
        else generate "translate" w
    | ClickRewrite =>
        if loading st || is_empty (advice st) then ret tt w
        else generate "rewrite" w
    | SelectLanguage value => setLanguage value w
    end.

Definition mount : World := snd (checkAI ([], initial)).

Fixpoint run (evs : list Event) (w : World) : World :=
  match evs with
  | [] => w
  | ev :: rest => run rest (snd (dispatch ev w))
  end.

Definition session (evs : list Event) : World := run evs mount.

End Component.

(** Counting calls in a log. *)
Definition is_probe (c : Call) : bool :=
  match c with
  | CanCreateTextSession => true
  | _ => false
  end.

Definition is_remote (c : Call) : bool :=
  match c with
  | FetchCall _ => true
  | _ => false
  end.

Definition is_open (c : Call) : bool :=
  match c with
  | CreateTextSession _ => true
  | _ => false
  end.

Definition is_prompt (c : Call) : bool :=
  match c with
  | SessionPrompt _ => true
  | _ => false
  end.

Definition probes (log : Log) : nat := length (filter is_probe log).

Definition session_opens (log : Log) : nat := length (filter is_open log).

Definition prompts (log : Log) : nat := length (filter is_prompt log).

Definition remote_calls (log : Log) : nat := length (filter is_remote log).

(** *** What the render shows *)

(** The provider badge, lines 119-131: none for a falsy [provider],
    otherwise chosen by [provider.startsWith], which only a string has. *)
Inductive Badge : Type :=
| OnDeviceBadge
| ServerBadge
| DemoBadge.

Definition badge (provider : Value) : Outcome (option Badge) :=
  if truthy provider then
    match provider with
    | VStr p =>
        Returns (Some (if startsWith p "on-device" then OnDeviceBadge
                       else if startsWith p "gemini:" then ServerBadge
                       else DemoBadge))
    | _ => Throws "TypeError"
    end
  else Returns None.

(** The status box, lines 160-195: the green box for [readily]; for any
    other truthy status a box whose content is written for
    [after-download], [unavailable], [no] and [error] only. *)
Inductive Banner : Type :=
| NoBanner
| ReadyBanner
| DownloadBanner
| SetupBanner
| NotAvailableBanner
| EmptyBanner.

Definition banner (aiStatus : option string) : Banner :=
  match aiStatus with
  | None => NoBanner
  | Some s =>
      if is_empty s then NoBanner
      else if String.eqb s "readily" then ReadyBanner
      else if String.eqb s "after-download" then DownloadBanner
      else if String.eqb s "unavailable" then SetupBanner
      else if String.eqb s "no" || String.eqb s "error" then NotAvailableBanner
      else EmptyBanner
  end.

(** The advisory box, line 215. *)
Definition shown (advice : string) : string :=
  if is_empty advice then "No advisory yet. Click “Generate advisory”."
  else advice.

(** Whether an event is a click on one of the three action buttons. *)
Definition is_click (ev : Event) : bool :=
  match ev with
  | SelectLanguage _ => false
  | _ => true
  end.

Definition is_generate_click (ev : Event) : bool :=
  match ev with
  | ClickGenerate => true
  | _ => false
  end.

Definition not_T (c : ascii) : bool := negb (Ascii.eqb c "T"%char).

End Client.

(* ================================================================== *)
(** ** pages/index.js: the weather the page hands to the advisor *)
(* ================================================================== *)

Module Page.
Import JS.

(** The two state cells [fetchWeather] writes: [wxError] ([None] is
    [null]) and, through [setter], the weather of one airport; [delivered]
    lists what [setter] was called with, oldest first. *)
Record State : Type := {
  wxError : option string;
  delivered : list Value
}.

Definition Log : Type := list FetchRequest.

Definition World : Type := (Log * State)%type.

Definition M (A : Type) : Type := World -> Outcome A * World.

Definition ret {A} (a : A) : M A := fun w => (Returns a, w).

Definition throw {A} (e : string) : M A := fun w => (Throws e, w).

Definition bind {A B} (m : M A) (k : A -> M B) : M B :=
  fun w =>
    match m w with
    | (Returns a, w') => k a w'
    | (Throws e, w') => (Throws e, w')
    end.

Definition await {A} (o : Outcome A) : M A := fun w => (o, w).

Definition try_catch {A} (block : M A) (catch : string -> M A) : M A :=
  fun w =>
    match block w with
    | (Returns a, w') => (Returns a, w')
    | (Throws e, w') => catch e w'
    end.

Definition setWxError (e : option string) : M unit :=
  fun w => (Returns tt, (fst w, {| wxError := e;
                                   delivered := delivered (snd w) |})).

Definition setter (wx : Value) : M unit :=
  fun w => (Returns tt,
            (fst w, {| wxError := wxError (snd w);
                       delivered := (delivered (snd w) ++ [wx])%list |})).

Declare Scope page_scope.
Delimit Scope page_scope with page.
Notation "x <- m ;; k" := (bind m (fun x => k))
  (at level 61, m at next level, right associativity) : page_scope.
Notation "m ;; k" := (bind m (fun _ => k))
  (at level 61, right associativity) : page_scope.

(** The call of line 38. *)
Definition weather_request (iata : string) : FetchRequest :=
  {| f_url := "/api/weather?iata=" ++ encodeURIComponent iata;
     f_method := "GET"; f_headers := []; f_body := None |}.

Section FetchWeather.

Variable fetch : Log -> FetchRequest -> Outcome FetchResponse.

Local Open Scope page_scope.

Definition call_fetch (rq : FetchRequest) : M FetchResponse :=
  fun w => (fetch (fst w) rq, ((fst w ++ [rq])%list, snd w)).

(** [fetchWeather(iata, setter)], lines 31-47.  An exception is carried
    by its [message]; [e.message || "Weather fetch failed"] takes the
    default for an empty one. *)
Definition fetchWeather (iata : string) : M unit :=
  try_catch
    (setWxError None ;;
     if is_empty iata then setter VNull
     else
       res <- call_fetch (weather_request iata) ;;
       data <- await (r_json res) ;;
       if negb (r_ok res) then
         message <- await (to_String (or_else (opt_get data "error")
                                              (VStr "Weather fetch failed"))) ;;
         throw message
       else
         weather <- await (get data "weather") ;;
         setter (or_else weather VNull))
    (fun e =>
       setWxError (Some (if is_empty e then "Weather fetch failed" else e)) ;;
       setter VNull).

End FetchWeather.

End Page.


(* ================================================================== *)
(** ** Test doubles *)
(* ================================================================== *)

Module Doubles.
Import JS Server.

Definition env_no_key : Env :=
  {| GEMINI_API_KEY := None; GEMINI_MODEL := None |}.

Definition env_with_key : Env :=
  {| GEMINI_API_KEY := Some "test-key"; GEMINI_MODEL := None |}.

Definition env_with_model : Env :=
  {| GEMINI_API_KEY := Some "test-key";
     GEMINI_MODEL := Some "gemini-2.0-flash" |}.

(** The request of the README's [curl] example. *)
Definition post_advice : Request :=
  {| method := "POST";
     body := VObj [("mode", VStr "advice"); ("language", VStr "en");
                   ("context",
                    VObj [("flight",
                           VObj [("origin", VStr "LAX");
                                 ("destination", VStr "JFK")])])] |}.

(** The prompt the handler builds from it. *)
Definition prompt_post_advice : string :=
  prompt "advice" "en" ""
    (VObj [("flight",
            VObj [("origin", VStr "LAX"); ("destination", VStr "JFK")])]).

(** A translation request whose [language] is an object that [String]
    cannot convert: its own [toString] is not callable. *)
Definition post_translate_unprintable : Request :=
  {| method := "POST";
     body := VObj [("mode", VStr "translate");
                   ("language", VObj [("toString", VNum "1")]);
                   ("advice", VStr "Pack an umbrella.")] |}.

Definition get_request : Request := {| method := "GET"; body := VUndefined |}.

(** A 404 whose body cannot be read: [r.text()] rejects. *)
Definition response_404_unreadable : FetchResponse :=
  {| r_ok := false; r_status := 404;
     r_json := Throws "TypeError: terminated";
     r_text := Throws "TypeError: terminated" |}.

Definition response_404 : FetchResponse :=
  {| r_ok := false; r_status := 404;
     r_json := Throws "SyntaxError"; r_text := Returns "model not found" |}.

Definition response_503 : FetchResponse :=
  {| r_ok := false; r_status := 503;
     r_json := Throws "SyntaxError"; r_text := Returns "unavailable" |}.

(** A successful response with nothing to extract. *)
Definition response_ok_empty : FetchResponse :=
  {| r_ok := true; r_status := 200;
     r_json := Returns (VObj []); r_text := Returns "{}" |}.

Definition gemini_answer (text : string) : Value :=
  VObj [("candidates",
         VArr [VObj [("content",
                      VObj [("parts", VArr [VObj [("text", VStr text)]])])]])].

Definition response_ok_text : FetchResponse :=
  {| r_ok := true; r_status := 200;
     r_json := Returns (gemini_answer "Pack an umbrella.");
     r_text := Returns "" |}.

Definition fetch_always (r : FetchResponse) : Fetch := fun _ _ => Returns r.

Definition fetch_down : Fetch := fun _ _ => Throws "fetch failed".

(** A provider that knows none of the candidates but the [n]-th called. *)
Definition fetch_nth_ok (n : nat) : Fetch :=
  fun log _ =>
    Returns (if Nat.eqb (length log) n then response_ok_text
             else response_404).

(** Client side. *)

Definition props_lax_jfk : Client.Props :=
  {| Client.origin := VStr "LAX"; Client.destination := VStr "JFK";
     Client.date := Client.DateObject (Returns "2025-01-02T10:00:00.000Z");
     Client.departureTime := VStr "10:00"; Client.arrivalTime := VStr "18:30";
     Client.originWeather := VUndefined; Client.destWeather := VUndefined;
     Client.prediction := VUndefined |}.

(** The context [buildContext] makes of these props. *)
Definition context_lax_jfk : Value :=
  VObj [("flight",
         VObj [("origin", VStr "LAX"); ("destination", VStr "JFK");
               ("date", VStr "2025-01-02");
               ("departureTime", VStr "10:00");
               ("arrivalTime", VStr "18:30")]);
        ("weather", VObj [("origin", VUndefined);
                          ("destination", VUndefined)]);
        ("prediction", VNull)].

(** A session answering every prompt with the same output. *)
Definition session_answering (output : Value) : Client.Session :=
  {| Client.session_prompt := fun _ _ => Returns output |}.

(** A session whose [prompt()] rejects. *)
Definition session_throwing : Client.Session :=
  {| Client.session_prompt := fun _ _ => Throws "prompt failed" |}.

(** A [window.ai] that answers the readiness query with [answer] and
    opens [session], and a window that has it. *)
Definition ai_with (answer : string) (session : Client.Session) : Client.AI :=
  {| Client.canCreateTextSession := Some (fun _ => Returns answer);
     Client.createTextSession := Some (fun _ _ => Returns session) |}.

Definition window_with (answer : string) (session : Client.Session)
    : option Client.Window :=
  Some {| Client.ai := Some (ai_with answer session) |}.

(** A window without [ai]. *)
Definition window_without_ai : option Client.Window :=
  Some {| Client.ai := None |}.

Definition route_down : Client.Log -> FetchRequest -> Outcome FetchResponse :=
  fun _ _ => Throws "TypeError: Failed to fetch".

(** What the handler reads as [req] when [props_lax_jfk] is on the page
    and Generate is clicked first: the parsed body of [advice_request]. *)
Definition first_click_request : Request :=
  {| method := "POST";
     body := VObj [("mode", VStr "advice"); ("language", VStr "en");
                   ("advice", VStr "");
                   ("context",
                    VObj [("flight",
                           VObj [("origin", VStr "LAX");
                                 ("destination", VStr "JFK");
                                 ("date", VStr "2025-01-02");
                                 ("departureTime", VStr "10:00");
                                 ("arrivalTime", VStr "18:30")]);
                          ("weather", VObj []);
                          ("prediction", VNull)])] |}.

(** The route as [handler] serves it for that request, under [env] and the
    provider [provider]. *)
Definition route_served (env : Env) (provider : Fetch)
    : Client.Log -> FetchRequest -> Outcome FetchResponse :=
  fun _ _ =>
    match fst (handler env provider first_click_request []) with
    | Returns res =>
        Returns {| r_ok := (200 <=? status res)%Z && (status res <=? 299)%Z;
                   r_status := status res;
                   r_json := Returns (payload_value (json res));
                   r_text := Returns "" |}
    | Throws e => Throws e
    end.

(** Props whose date is an invalid [Date]: [toISOString()] throws. *)
Definition props_invalid_date : Client.Props :=
  {| Client.origin := VStr "LAX"; Client.destination := VStr "JFK";
     Client.date := Client.DateObject (Throws "RangeError: Invalid time value");
     Client.departureTime := VStr "14:30"; Client.arrivalTime := VStr "17:30";
     Client.originWeather := VNull; Client.destWeather := VNull;
     Client.prediction := VNull |}.

(** The server route answering 405 with the handler's error body. *)
Definition route_405 : Client.Log -> FetchRequest -> Outcome FetchResponse :=
  fun _ _ =>
    Returns (response_of {| status := 405;
                            json := ErrorPayload "Method not allowed" |}).

(** The server route as [handler] serves [req] under [env] and the
    provider [provider], for any request of the component. *)
Definition route_of (env : Env) (provider : Fetch) (req : Request)
    : Client.Log -> FetchRequest -> Outcome FetchResponse :=
  fun _ _ =>
    match fst (handler env provider req []) with
    | Returns res => Returns (response_of res)
    | Throws e => Throws e
    end.

(** The weather route answering with a fixed JSON body and status. *)
Definition weather_route (ok : bool) (code : Z) (j : Value)
    : Page.Log -> FetchRequest -> Outcome FetchResponse :=
  fun _ _ => Returns {| r_ok := ok; r_status := code; r_json := Returns j;
                        r_text := Returns "" |}.

End Doubles.

(* ================================================================== *)
(** ** Facts about the built-ins *)
(* ================================================================== *)

Module JSFacts.
Import JS.





Lemma append_assoc (a b c : string) : (a ++ b) ++ c = a ++ b ++ c.
Proof. induction a as [|x a IH]; simpl; congruence. Qed.

Lemma existsb_eqb_In (x : string) (l : list string) :
  existsb (String.eqb x) l = true <-> In x l.
Proof.
  rewrite existsb_exists. split.
  - intros (y & Hy & E). apply String.eqb_eq in E. now subst.
  - intros H. exists x. split; [assumption | apply String.eqb_refl].
Qed.

Lemma Set_add_all_NoDup (l seen : list string) :
  NoDup seen -> NoDup (Set_add_all seen l).
Proof.
  revert seen. induction l as [|x l IH]; intros seen Hseen; simpl.
  - assumption.
  - apply IH. destruct (existsb (String.eqb x) seen) eqn:E.
    + assumption.
    + apply NoDup_app.
      * assumption.
      * constructor; [intros [] | constructor].
      * intros a Ha [<- | []].
        apply existsb_eqb_In in Ha. congruence.
Qed.

Lemma Set_add_all_head (l seen : list string) (h : string) (t : list string) :
  seen = h :: t -> exists t', Set_add_all seen l = h :: t'.
Proof.
  revert seen t. induction l as [|x l IH]; intros seen t ->.
  - now exists t.
  - cbn [Set_add_all]. destruct (existsb (String.eqb x) (h :: t)).
    + now apply (IH _ t).
    + now apply (IH _ (t ++ [x])%list).
Qed.

Lemma Array_from_Set_NoDup (l : list string) : NoDup (Array_from_Set l).
Proof. apply Set_add_all_NoDup. constructor. Qed.

Lemma Array_from_Set_head (x : string) (l : list string) :
  exists t, Array_from_Set (x :: l) = x :: t.
Proof. unfold Array_from_Set. simpl. now apply (@Set_add_all_head l [x] x []). Qed.

(** [v || ''] is truthy or the empty string. *)
Lemma or_empty_cases (v : Value) :
  truthy (or_else v (VStr "")) = true \/ or_else v (VStr "") = VStr "".
Proof. unfold or_else. destruct (truthy v) eqn:E; auto. Qed.

(** A string is truthy exactly when it is not empty. *)
Lemma truthy_VStr (s : string) : truthy (VStr s) = true <-> s <> "".
Proof.
  simpl. rewrite negb_true_iff. split.
  - intros E ->. discriminate.
  - intros H. apply String.eqb_neq. assumption.
Qed.

(** Anything but [undefined] serializes. *)
Lemma stringify_defined (gap : string) (v : Value) :
  v <> VUndefined -> exists s, stringify gap v = Some s.
Proof.
  unfold stringify. destruct v; simpl; try (eexists; reflexivity).
  - congruence.
  - destruct b; eexists; reflexivity.
  - destruct (_ || _); eexists; reflexivity.
Qed.

End JSFacts.

(* ================================================================== *)
(** ** Facts about pages/api/ai-advice.js *)
(* ================================================================== *)

Module ServerFacts.
Import JS JSFacts Server.

Ltac unfold_M :=
  unfold Server.bind, Server.await_fetch, Server.await, Server.ret,
         Server.throw, Server.try_catch in *.

Section Cascade.

Variable fetch : Fetch.
Variables apiKey prompt : string.

Local Abbreviation rq := (request_for apiKey prompt).

(** *** One pass through the body of the inner loop *)

Lemma attempt_ok ver model rest last log r data :
  fetch log (rq (ver, model)) = Returns r ->
  r_ok r = true ->
  r_json r = Returns data ->
  for_models fetch apiKey prompt ver (model :: rest) last log
  = (Returns (Return {| status := 200;
                        json := AdvisoryPayload
                                  (or_else (extract data) (VStr ""))
                                  (provider_tag (ver, model)) None |}),
     (log ++ [rq (ver, model)])%list).
Proof.
  intros Hf Hok Hj. cbn [for_models]. unfold_M.
  rewrite Hf, Hok, Hj. reflexivity.
Qed.

Lemma attempt_retry ver model rest last log r t :
  fetch log (rq (ver, model)) = Returns r ->
  r_ok r = false ->
  (r_status r < 500)%Z ->
  r_text r = Returns t ->
  for_models fetch apiKey prompt ver (model :: rest) last log
  = for_models fetch apiKey prompt ver rest
      ("(" ++ ver ++ "/" ++ model ++ ") " ++ t)
      (log ++ [rq (ver, model)])%list.
Proof.
  intros Hf Hok Hs Ht. cbn [for_models]. unfold_M.
  rewrite Hf, Hok, Ht.
  destruct (Z.geb_spec (r_status r) 500); [lia | reflexivity].
Qed.

Lemma attempt_abort ver model rest last log r t :
  fetch log (rq (ver, model)) = Returns r ->
  r_ok r = false ->
  (r_status r >= 500)%Z ->
  r_text r = Returns t ->
  for_models fetch apiKey prompt ver (model :: rest) last log
  = (Throws ("Gemini API server error " ++ show_int (r_status r) ++ ": " ++ t),
     (log ++ [rq (ver, model)])%list).
Proof.
  intros Hf Hok Hs Ht. cbn [for_models]. unfold_M.
  rewrite Hf, Hok, Ht.
  destruct (Z.geb_spec (r_status r) 500); [reflexivity | lia].
Qed.

(** The inner loop goes on with the rest of the models exactly when its
    first pass is exhausted. *)
Lemma for_models_cons ver model rest last log :
  for_models fetch apiKey prompt ver (model :: rest) last log
  = match for_models fetch apiKey prompt ver [model] last log with
    | (Returns (Exhausted last'), log') =>
        for_models fetch apiKey prompt ver rest last' log'
    | other => other
    end.
Proof.
  cbn [for_models]. unfold_M.
  destruct (fetch log (rq (ver, model))) as [r|e]; [|reflexivity].
  destruct (r_ok r).
  - destruct (r_json r); reflexivity.
  - destruct (r_text r); [|reflexivity].
    destruct (r_status r >=? 500)%Z; reflexivity.
Qed.

(** *** The nested loops visit the candidates in list order *)

Lemma for_candidates_app ver ms cs last log :
  for_candidates fetch apiKey prompt (map (pair ver) ms ++ cs) last log
  = match for_models fetch apiKey prompt ver ms last log with
    | (Returns (Exhausted last'), log') =>
        for_candidates fetch apiKey prompt cs last' log'
    | other => other
    end.
Proof.
  revert last log. induction ms as [|model ms IH]; intros last log.
  - reflexivity.
  - cbn [map app for_candidates]. unfold Server.bind at 1.
    rewrite (for_models_cons ver model ms).
    destruct (for_models fetch apiKey prompt ver [model] last log)
      as [[[res|last']|e] log'].
    + reflexivity.
    + apply IH.
    + reflexivity.
Qed.

Lemma for_versions_flat vs ms last log :
  for_versions fetch apiKey prompt vs ms last log
  = for_candidates fetch apiKey prompt
      (flat_map (fun ver => map (pair ver) ms) vs) last log.
Proof.
  revert last log. induction vs as [|ver vs IH]; intros last log.
  - reflexivity.
  - cbn [flat_map for_versions]. rewrite for_candidates_app.
    unfold Server.bind.
    destruct (for_models fetch apiKey prompt ver ms last log)
      as [[[res|last']|e] log'].
    + reflexivity.
    + apply IH.
    + reflexivity.
Qed.

(** *** Runs of candidate-specific failures *)

Lemma all_fail_nil log : all_fail_retryably fetch apiKey prompt log [].
Proof. intros pre c post H. destruct pre; discriminate. Qed.

Lemma all_fail_cons log c cs :
  fails_retryably (fetch log (rq c)) ->
  all_fail_retryably fetch apiKey prompt (log ++ [rq c])%list cs ->
  all_fail_retryably fetch apiKey prompt log (c :: cs).
Proof.
  intros Hc Hcs pre c' post E. destruct pre as [|c0 pre].
  - injection E as <- _. cbn [map]. rewrite app_nil_r. assumption.
  - injection E as <- ->. cbn [map].
    replace (log ++ rq c :: map rq pre)%list
      with ((log ++ [rq c]) ++ map rq pre)%list
      by (rewrite <- app_assoc; reflexivity).
    now apply (Hcs pre c' post).
Qed.

Lemma all_fail_inv log c cs :
  all_fail_retryably fetch apiKey prompt log (c :: cs) ->
  fails_retryably (fetch log (rq c))
  /\ all_fail_retryably fetch apiKey prompt (log ++ [rq c])%list cs.
Proof.
  intros H. split.
  - specialize (H [] c cs eq_refl). cbn [map] in H.
    now rewrite app_nil_r in H.
  - intros pre c' post ->.
    specialize (H (c :: pre) c' post eq_refl). cbn [map] in H.
    now rewrite <- app_assoc.
Qed.

(** One candidate of the flat loop, in each of its three ways out. *)

Lemma candidate_ok ver model rest last log r data :
  fetch log (rq (ver, model)) = Returns r ->
  r_ok r = true ->
  r_json r = Returns data ->
  for_candidates fetch apiKey prompt ((ver, model) :: rest) last log
  = (Returns (Return {| status := 200;
                        json := AdvisoryPayload
                                  (or_else (extract data) (VStr ""))
                                  (provider_tag (ver, model)) None |}),
     (log ++ [rq (ver, model)])%list).
Proof.
  intros Hf Hok Hj. cbn [for_candidates]. unfold Server.bind.
  now rewrite (attempt_ok _ _ Hf Hok Hj).
Qed.

Lemma candidate_retry ver model rest last log r t :
  fetch log (rq (ver, model)) = Returns r ->
  r_ok r = false ->
  (r_status r < 500)%Z ->
  r_text r = Returns t ->
  for_candidates fetch apiKey prompt ((ver, model) :: rest) last log
  = for_candidates fetch apiKey prompt rest
      ("(" ++ ver ++ "/" ++ model ++ ") " ++ t)
      (log ++ [rq (ver, model)])%list.
Proof.
  intros Hf Hok Hs Ht. cbn [for_candidates]. unfold Server.bind.
  now rewrite (attempt_retry _ _ Hf Hok Hs Ht).
Qed.

Lemma candidate_abort ver model rest last log r t :
  fetch log (rq (ver, model)) = Returns r ->
  r_ok r = false ->
  (r_status r >= 500)%Z ->
  r_text r = Returns t ->
  for_candidates fetch apiKey prompt ((ver, model) :: rest) last log
  = (Throws ("Gemini API server error " ++ show_int (r_status r) ++ ": " ++ t),
     (log ++ [rq (ver, model)])%list).
Proof.
  intros Hf Hok Hs Ht. cbn [for_candidates]. unfold Server.bind.
  now rewrite (attempt_abort _ _ Hf Hok Hs Ht).
Qed.

(** A run of candidate-specific failures is walked through in order, one
    call each, and leaves the last error text behind. *)
Lemma skip_failures pre cs last log :
  all_fail_retryably fetch apiKey prompt log pre ->
  exists last',
    recorded_after fetch apiKey prompt last log pre last'
    /\ for_candidates fetch apiKey prompt (pre ++ cs) last log
       = for_candidates fetch apiKey prompt cs last'
           (log ++ map rq pre)%list.
Proof.
  revert last log. induction pre as [|[ver model] pre IH]; intros last log H.
  - exists last. split.
    + split; [reflexivity|]. intros [|? ?] ? E; discriminate.
    + cbn [map app]. now rewrite app_nil_r.
  - apply all_fail_inv in H as [(r & t & Hf & Hok & Hs & Ht) Hrest].
    destruct (IH ("(" ++ ver ++ "/" ++ model ++ ") " ++ t) _ Hrest)
      as (last' & [Hnil Hlast] & Hrun).
    exists last'. split.
    + split; [discriminate|]. intros pre0 c E.
      destruct pre0 as [|c0 pre0].
      * injection E as <- Hpre. cbn [map]. rewrite app_nil_r.
        exists r, t. repeat split; try assumption.
        now apply Hnil.
      * injection E as <- ->. cbn [map].
        destruct (Hlast pre0 c eq_refl) as (r' & t' & Hf' & Ht' & ->).
        exists r', t'. repeat split; try assumption.
        now rewrite <- app_assoc in Hf'.
    + cbn [app map]. rewrite (candidate_retry _ _ Hf Hok Hs Ht), Hrun.
      now rewrite <- app_assoc.
Qed.

(** The flat loop hands back a response only from a candidate whose call
    resolved with [r.ok], all candidates before it having failed in the
    candidate-specific way. *)
Lemma for_candidates_Return_inv cs last log res log' :
  for_candidates fetch apiKey prompt cs last log = (Returns (Return res), log') ->
  exists pre ver model post r data,
    cs = (pre ++ (ver, model) :: post)%list
    /\ all_fail_retryably fetch apiKey prompt log pre
    /\ fetch (log ++ map rq pre)%list (rq (ver, model)) = Returns r
    /\ r_ok r = true
    /\ r_json r = Returns data
    /\ res = {| status := 200;
                json := AdvisoryPayload (or_else (extract data) (VStr ""))
                          (provider_tag (ver, model)) None |}
    /\ log' = (log ++ map rq pre ++ [rq (ver, model)])%list.
Proof.
  revert last log. induction cs as [|[ver model] cs IH]; intros last log H.
  - discriminate.
  - destruct (fetch log (rq (ver, model))) as [r|e] eqn:Hf.
    2:{ cbn [for_candidates for_models] in H. unfold_M.
        rewrite Hf in H. discriminate. }
    destruct (r_ok r) eqn:Hok.
    + destruct (r_json r) as [data|e] eqn:Hj.
      * rewrite (candidate_ok _ _ Hf Hok Hj) in H.
        injection H as <- <-.
        exists [], ver, model, cs, r, data. cbn [map app].
        rewrite app_nil_r.
        repeat split; try assumption; try reflexivity. apply all_fail_nil.
      * cbn [for_candidates for_models] in H. unfold_M.
        rewrite Hf, Hok, Hj in H. discriminate.
    + destruct (r_text r) as [t|e] eqn:Ht.
      2:{ cbn [for_candidates for_models] in H. unfold_M.
          rewrite Hf, Hok, Ht in H. discriminate. }
      destruct (Z.lt_ge_cases (r_status r) 500) as [Hs|Hs].
      * rewrite (candidate_retry _ _ Hf Hok Hs Ht) in H.
        apply IH in H
          as (pre & v & m & post & r' & data & -> & Hpre & Hf' & Hok' & Hj'
              & -> & ->).
        exists ((ver, model) :: pre), v, m, post, r', data. cbn [map app].
        rewrite <- !app_assoc in *. cbn [app] in *.
        repeat split; try assumption; try reflexivity.
        apply all_fail_cons; [|assumption].
        exists r, t. repeat split; assumption.
      * rewrite (candidate_abort _ _ Hf Hok (Z.le_ge _ _ Hs) Ht) in H.
        discriminate.
Qed.

(** Whatever the provider does, the calls of the flat loop are those of a
    prefix of the candidates, in order, one call each. *)
Lemma for_candidates_calls cs last log :
  exists n,
    snd (for_candidates fetch apiKey prompt cs last log)
    = (log ++ map rq (firstn n cs))%list.
Proof.
  revert last log. induction cs as [|[ver model] cs IH]; intros last log.
  - exists 0. cbn. now rewrite app_nil_r.
  - cbn [for_candidates for_models]. unfold_M.
    destruct (fetch log (rq (ver, model))) as [r|e];
      [|exists 1; reflexivity].
    destruct (r_ok r).
    + exists 1. destruct (r_json r); reflexivity.
    + destruct (r_text r) as [t|e]; [|exists 1; reflexivity].
      destruct (r_status r >=? 500)%Z; [exists 1; reflexivity|].
      cbn [snd].
      destruct (IH ("(" ++ ver ++ "/" ++ model ++ ") " ++ t)
                   (log ++ [rq (ver, model)])%list) as (n & Hn).
      exists (S n). cbn [firstn map].
      destruct (for_candidates fetch apiKey prompt cs _ _)
        as [[[res|last']|e] log'];
        cbn [snd] in *; rewrite Hn, <- app_assoc; reflexivity.
Qed.

End Cascade.

(** *** The candidate list *)

Lemma versions_NoDup : NoDup versions.
Proof.
  repeat constructor; simpl; intuition discriminate.
Qed.

Lemma cross_NoDup (vs ms : list string) :
  NoDup vs -> NoDup ms ->
  NoDup (flat_map (fun ver => map (pair ver) ms) vs).
Proof.
  intros Hvs Hms. induction Hvs as [|v vs Hv Hvs IH]; cbn [flat_map].
  - constructor.
  - apply NoDup_app.
    + clear -Hms. induction Hms as [|m ms Hm Hms IH]; cbn [map].
      * constructor.
      * constructor; [|assumption].
        intros Hin. apply in_map_iff in Hin as (m' & E & Hin).
        injection E as ->. contradiction.
    + assumption.
    + intros [v' m'] Hin1 Hin2.
      apply in_map_iff in Hin1 as (m1 & E1 & _). injection E1 as <- _.
      apply in_flat_map in Hin2 as (v2 & Hv2 & Hin2).
      apply in_map_iff in Hin2 as (m2 & E2 & _). injection E2 as -> _.
      contradiction.
Qed.

Lemma models_head env : exists rest, models env = preferred env :: rest.
Proof. apply Array_from_Set_head. Qed.

Lemma candidates_head env :
  exists rest, candidates env = ("v1beta", preferred env) :: rest.
Proof.
  destruct (models_head env) as (rest & E).
  unfold candidates, versions. cbn [flat_map]. rewrite E. cbn [map app].
  eexists. reflexivity.
Qed.

(** C7. The candidate list holds no (version, model) pair twice; its first
    candidate carries the model of [GEMINI_MODEL] when that variable is set
    to a non-empty string, and the built-in default [gemini-1.5-flash] when
    it is unset or empty. *)
Theorem candidates_distinct_preferred_first (env : Env) :
  NoDup (candidates env)
  /\ (forall m, GEMINI_MODEL env = Some m -> m <> "" ->
        exists rest, candidates env = ("v1beta", m) :: rest)
  /\ (truthy_env (GEMINI_MODEL env) = false ->
        exists rest, candidates env = ("v1beta", "gemini-1.5-flash") :: rest).
Proof.
  split; [|split].
  - apply cross_NoDup; [apply versions_NoDup | apply Array_from_Set_NoDup].
  - intros m Hm Hne. destruct (candidates_head env) as (rest & E).
    exists rest. rewrite E. unfold preferred. rewrite Hm.
    unfold is_empty. apply String.eqb_neq in Hne. now rewrite Hne.
  - intros Hf. destruct (candidates_head env) as (rest & E).
    exists rest. rewrite E. unfold preferred.
    destruct (GEMINI_MODEL env) as [m|]; [|reflexivity].
    unfold is_empty. cbn [truthy_env] in Hf.
    apply negb_false_iff in Hf. now rewrite Hf.
Qed.

Lemma candidates_distinct_preferred_first_witness :
  NoDup (candidates Doubles.env_with_model)
  /\ (exists rest,
        candidates Doubles.env_with_model
        = ("v1beta", "gemini-2.0-flash") :: rest)
  /\ (exists rest,
        candidates Doubles.env_with_key
        = ("v1beta", "gemini-1.5-flash") :: rest).
Proof.
  destruct (candidates_distinct_preferred_first Doubles.env_with_model)
    as (Hnodup & Hfirst & _).
  destruct (candidates_distinct_preferred_first Doubles.env_with_key)
    as (_ & _ & Hdefault).
  split; [exact Hnodup | split].
  - apply (Hfirst "gemini-2.0-flash"); [reflexivity | discriminate].
  - apply Hdefault. reflexivity.
Defined.

(** *** [handler] *)

Lemma stub_no_key_nonempty : stub_no_key <> "".
Proof. discriminate. Qed.

Lemma stub_on_error_nonempty : stub_on_error <> "".
Proof. discriminate. Qed.

Lemma method_POST req : method req = "POST" ->
  negb (String.eqb (method req) "POST") = false.
Proof. intros ->. reflexivity. Qed.

Lemma method_not_POST req : method req <> "POST" ->
  negb (String.eqb (method req) "POST") = true.
Proof. intros H. apply String.eqb_neq in H. now rewrite H. Qed.

Lemma truthy_key apiKey : apiKey <> "" -> truthy_env (Some apiKey) = true.
Proof. intros H. apply String.eqb_neq in H. cbn. now rewrite H. Qed.

(** With a credential, a POST runs the two loops and wraps their three
    ways out. *)
Lemma handler_with_key env fetch req prompt log :
  method req = "POST" ->
  prompt_of req = Returns prompt ->
  truthy_env (GEMINI_API_KEY env) = true ->
  handler env fetch req log
  = match for_versions fetch (or_default (GEMINI_API_KEY env) "")
            prompt versions (models env) "" log with
    | (Returns (Return res), log') => (Returns res, log')
    | (Returns (Exhausted lastErrText), log') =>
        (Returns {| status := 200;
                    json := AdvisoryPayload (VStr stub_unavailable)
                              "stub-fallback" (Some lastErrText) |}, log')
    | (Throws e, log') =>
        (Returns {| status := 200;
                    json := AdvisoryPayload (VStr stub_on_error) "stub-error"
                              None |}, log')
    end.
Proof.
  intros Hm Hp Hk. unfold handler. rewrite (method_POST _ Hm), Hk.
  cbn [negb].
  unfold Server.try_catch, Server.bind, Server.ret, Server.await.
  rewrite Hp.
  destruct (for_versions _ _ _ _ _ _ _) as [[[res|last']|e] log'];
    reflexivity.
Qed.

Lemma handler_without_key env fetch req prompt log :
  method req = "POST" ->
  prompt_of req = Returns prompt ->
  truthy_env (GEMINI_API_KEY env) = false ->
  handler env fetch req log
  = (Returns {| status := 200;
                json := AdvisoryPayload (VStr stub_no_key) "stub" None |},
     log).
Proof.
  intros Hm Hp Hk. unfold handler. rewrite (method_POST _ Hm), Hk.
  unfold Server.try_catch, Server.bind, Server.ret, Server.await.
  now rewrite Hp.
Qed.

(** A prompt that cannot be built, lines 19 and 21, sends the request to
    the [catch] of lines 99-110 before the key is tested and before any
    provider call. *)
Lemma handler_prompt_throws env fetch req e log :
  method req = "POST" ->
  prompt_of req = Throws e ->
  handler env fetch req log
  = (Returns {| status := 200;
                json := AdvisoryPayload (VStr stub_on_error) "stub-error"
                          None |},
     log).
Proof.
  intros Hm Hp. unfold handler. rewrite (method_POST _ Hm).
  unfold Server.try_catch, Server.bind, Server.ret, Server.await.
  now rewrite Hp.
Qed.

(** The prompt is built for every mode other than [translate] and
    [rewrite], and in every mode when [language] and [advice] are strings
    or absent. *)
Lemma prompt_of_builds req :
  (is_string (field req "mode" (VStr "advice")) "translate" = false ->
   is_string (field req "mode" (VStr "advice")) "rewrite" = false ->
   exists prompt, prompt_of req = Returns prompt)
  /\ (forall language advice,
        field req "language" (VStr "en") = VStr language ->
        field req "advice" (VStr "") = VStr advice ->
        exists prompt, prompt_of req = Returns prompt).
Proof.
  unfold prompt_of. split.
  - intros -> ->. eauto.
  - intros language advice -> ->. cbn [to_String].
    destruct (is_string _ "translate"); [eauto|].
    destruct (is_string _ "rewrite"); eauto.
Qed.

(** C6, as the code has it.  Without a credential ([GEMINI_API_KEY]
    unset or empty) a POST is answered at once, the log of provider calls
    left as it was, with a fixed non-empty demo text: under provider [stub]
    when the prompt is built - for every mode other than [translate] and
    [rewrite], and in every mode when [language] and [advice] are strings
    or absent - and under provider [stub-error] when building the prompt
    throws, which happens before the key is tested. *)
Theorem no_credential_returns_stub env fetch req log :
  method req = "POST" ->
  truthy_env (GEMINI_API_KEY env) = false ->
  snd (handler env fetch req log) = log
  /\ (forall prompt,
        prompt_of req = Returns prompt ->
        handler env fetch req log
        = (Returns {| status := 200;
                      json := AdvisoryPayload (VStr stub_no_key) "stub"
                                None |},
           log))
  /\ (forall e,
        prompt_of req = Throws e ->
        handler env fetch req log
        = (Returns {| status := 200;
                      json := AdvisoryPayload (VStr stub_on_error)
                                "stub-error" None |},
           log))
  /\ (is_string (field req "mode" (VStr "advice")) "translate" = false ->
      is_string (field req "mode" (VStr "advice")) "rewrite" = false ->
      exists prompt, prompt_of req = Returns prompt)
  /\ (forall language advice,
        field req "language" (VStr "en") = VStr language ->
        field req "advice" (VStr "") = VStr advice ->
        exists prompt, prompt_of req = Returns prompt)
  /\ stub_no_key <> ""
  /\ stub_on_error <> "".
Proof.
  intros Hm Hk. destruct (prompt_of_builds req) as [Hmode Hstrings].
  split; [|split; [|split; [|split; [|split; [|split]]]]].
  - destruct (prompt_of req) as [prompt|e] eqn:Hp.
    + now rewrite (handler_without_key env fetch req log Hm Hp Hk).
    + now rewrite (handler_prompt_throws env fetch req log Hm Hp).
  - intros prompt Hp. now apply handler_without_key with (prompt := prompt).
  - intros e Hp. now apply handler_prompt_throws with (e := e).
  - exact Hmode.
  - exact Hstrings.
  - apply stub_no_key_nonempty.
  - apply stub_on_error_nonempty.
Qed.

Lemma no_credential_returns_stub_witness :
  (method Doubles.post_advice = "POST"
   /\ truthy_env (GEMINI_API_KEY Doubles.env_no_key) = false)
  /\ handler Doubles.env_no_key Doubles.fetch_down Doubles.post_advice []
     = (Returns {| status := 200;
                   json := AdvisoryPayload (VStr stub_no_key) "stub" None |},
        []).
Proof.
  split.
  - split; reflexivity.
  - destruct (@no_credential_returns_stub Doubles.env_no_key
                Doubles.fetch_down Doubles.post_advice [] eq_refl eq_refl)
      as (_ & Hstub & _).
    apply (Hstub Doubles.prompt_post_advice). reflexivity.
Defined.

(** C6 as stated fails: without a credential, a translation request whose
    [language] is an object with an own [toString] that is not callable
    is answered under provider [stub-error], not [stub]. *)
Lemma unprintable_language_is_not_answered_stub :
  method Doubles.post_translate_unprintable = "POST"
  /\ truthy_env (GEMINI_API_KEY Doubles.env_no_key) = false
  /\ handler Doubles.env_no_key Doubles.fetch_down
       Doubles.post_translate_unprintable []
     = (Returns {| status := 200;
                   json := AdvisoryPayload (VStr stub_on_error) "stub-error"
                             None |},
        [])
  /\ handler Doubles.env_no_key Doubles.fetch_down
       Doubles.post_translate_unprintable []
     <> (Returns {| status := 200;
                    json := AdvisoryPayload (VStr stub_no_key) "stub" None |},
         []).
Proof. repeat split. discriminate. Qed.

(** C5, at the failing input.  The first candidate answers 404 with a body
    that cannot be read: [r.text()], awaited on line 78 before the status
    is tested, rejects.  Nothing is recorded and no next candidate is
    tried: the handler answers [stub-error] after that one call, eleven
    candidates left uncalled, where a 404 whose body reads is skipped and
    the cascade runs to [stub-fallback]. *)
Theorem unreadable_404_ends_the_cascade :
  let rq := request_for "test-key" Doubles.prompt_post_advice in
  (r_ok Doubles.response_404_unreadable = false
   /\ r_status Doubles.response_404_unreadable = 404%Z
   /\ (r_status Doubles.response_404_unreadable >=? 500)%Z = false)
  /\ handler Doubles.env_with_key
       (Doubles.fetch_always Doubles.response_404_unreadable)
       Doubles.post_advice []
     = (Returns {| status := 200;
                   json := AdvisoryPayload (VStr stub_on_error) "stub-error"
                             None |},
        [rq ("v1beta", "gemini-1.5-flash")])
  /\ length (candidates Doubles.env_with_key) = 12
  /\ handler Doubles.env_with_key
       (Doubles.fetch_always Doubles.response_404)
       Doubles.post_advice []
     = (Returns {| status := 200;
                   json := AdvisoryPayload (VStr stub_unavailable)
                             "stub-fallback"
                             (Some ("(v1/gemini-1.5-pro) model not found")) |},
        map rq (candidates Doubles.env_with_key)).
Proof. cbv zeta. repeat split; vm_compute; reflexivity. Qed.

(** When every candidate, at its turn, fails with a status below 500 and a
    body that reads, each failure is recorded and the next candidate of the
    list is called: the calls are those of the whole candidate list, in
    order.  The handler then returns (it does not throw) status 200 with
    the fixed stub text, provider [stub-fallback], and [errorInfo] the
    text recorded for the last candidate. *)
Theorem exhausted_cascade_returns_stub_fallback
    env fetch req prompt apiKey log :
  method req = "POST" ->
  prompt_of req = Returns prompt ->
  GEMINI_API_KEY env = Some apiKey ->
  apiKey <> "" ->
  all_fail_retryably fetch apiKey prompt log (candidates env) ->
  exists ver model r t,
    last (candidates env) ("", "") = (ver, model)
    /\ fetch (log ++ map (request_for apiKey prompt)
                         (removelast (candidates env)))%list
             (request_for apiKey prompt (ver, model)) = Returns r
    /\ r_text r = Returns t
    /\ handler env fetch req log
       = (Returns {| status := 200;
                     json := AdvisoryPayload (VStr stub_unavailable)
                               "stub-fallback"
                               (Some ("(" ++ ver ++ "/" ++ model ++ ") " ++ t)) |},
          (log ++ map (request_for apiKey prompt) (candidates env))%list).
Proof.
  intros Hm Hp Hk Hne Hall.
  destruct (skip_failures [] "" Hall) as (last' & [_ Hlast] & Hrun).
  rewrite app_nil_r in Hrun.
  destruct (candidates_head env) as (rest & Hhead).
  destruct (@exists_last _ (candidates env)) as (pre0 & [ver model] & Hsplit).
  { rewrite Hhead. discriminate. }
  destruct (Hlast pre0 (ver, model) Hsplit) as (r & t & Hf & Ht & ->).
  exists ver, model, r, t.
  rewrite Hsplit at 1 2. rewrite last_last, removelast_last.
  repeat split; try assumption.
  rewrite (@handler_with_key env fetch req prompt log Hm Hp)
    by (rewrite Hk; auto using truthy_key).
  rewrite for_versions_flat. fold (candidates env).
  rewrite Hk. cbn [or_default]. rewrite Hrun. reflexivity.
Qed.

Lemma exhausted_cascade_returns_stub_fallback_witness :
  let rq := request_for "test-key" Doubles.prompt_post_advice in
  exists r t,
    Doubles.fetch_always Doubles.response_404
      (map rq (removelast (candidates Doubles.env_with_key)))
      (rq ("v1", "gemini-1.5-pro")) = Returns r
    /\ r_text r = Returns t
    /\ handler Doubles.env_with_key
         (Doubles.fetch_always Doubles.response_404) Doubles.post_advice []
       = (Returns {| status := 200;
                     json := AdvisoryPayload (VStr stub_unavailable)
                               "stub-fallback"
                               (Some ("(v1/gemini-1.5-pro) " ++ t)) |},
          map rq (candidates Doubles.env_with_key)).
Proof.
  intros rq.
  destruct (@exhausted_cascade_returns_stub_fallback Doubles.env_with_key
              (Doubles.fetch_always Doubles.response_404)
              Doubles.post_advice Doubles.prompt_post_advice "test-key" [])
    as (ver & model & r & t & Hlast & Hf & Ht & Hh).
  - reflexivity.
  - reflexivity.
  - reflexivity.
  - discriminate.
  - intros pre c post _. exists Doubles.response_404, "model not found".
    repeat split; reflexivity.
  - injection Hlast as <- <-. exists r, t. repeat split; assumption.
Defined.

(** C4. When a candidate's call, at its turn, fails with a status of 500
    or more, the loops throw at once: the calls are those of the candidates
    up to that one and no later candidate is called.  The exception is the
    server-error one (or that of [r.text()], awaited first).  It reaches
    the handler's [catch], which answers with the [stub-error] payload
    after the very same calls. *)
Theorem server_error_aborts_cascade
    env fetch req prompt apiKey log pre c post r :
  method req = "POST" ->
  prompt_of req = Returns prompt ->
  GEMINI_API_KEY env = Some apiKey ->
  apiKey <> "" ->
  candidates env = (pre ++ c :: post)%list ->
  all_fail_retryably fetch apiKey prompt log pre ->
  fetch (log ++ map (request_for apiKey prompt) pre)%list
        (request_for apiKey prompt c) = Returns r ->
  r_ok r = false ->
  (r_status r >= 500)%Z ->
  let calls :=
    (log ++ map (request_for apiKey prompt) pre
         ++ [request_for apiKey prompt c])%list in
  for_versions fetch apiKey prompt versions (models env) "" log
  = (Throws match r_text r with
            | Returns t =>
                "Gemini API server error " ++ show_int (r_status r)
                  ++ ": " ++ t
            | Throws e => e
            end,
     calls)
  /\ handler env fetch req log
     = (Returns {| status := 200;
                   json := AdvisoryPayload (VStr stub_on_error) "stub-error"
                             None |},
        calls).
Proof.
  intros Hm Hp Hk Hne Hsplit Hpre Hf Hok Hs calls.
  assert (Hrun :
    for_versions fetch apiKey prompt versions (models env) "" log
    = (Throws match r_text r with
              | Returns t =>
                  "Gemini API server error " ++ show_int (r_status r)
                    ++ ": " ++ t
              | Throws e => e
              end, calls)).
  { rewrite for_versions_flat. fold (candidates env). rewrite Hsplit.
    destruct (skip_failures (c :: post) "" Hpre) as (last' & _ & ->).
    destruct c as [ver model]. subst calls. rewrite app_assoc.
    destruct (r_text r) as [t|e] eqn:Ht.
    - eapply candidate_abort; eassumption.
    - cbn [for_candidates for_models]. unfold_M.
      rewrite Hf, Hok, Ht. reflexivity. }
  split; [assumption|].
  rewrite (@handler_with_key env fetch req prompt log Hm Hp)
    by (rewrite Hk; auto using truthy_key).
  rewrite Hk. cbn [or_default]. rewrite Hrun. reflexivity.
Qed.

Lemma server_error_aborts_cascade_witness :
  let rq := request_for "test-key" Doubles.prompt_post_advice in
  for_versions (Doubles.fetch_always Doubles.response_503) "test-key"
    Doubles.prompt_post_advice versions (models Doubles.env_with_key)
    "" []
  = (Throws "Gemini API server error 503: unavailable",
     [rq ("v1beta", "gemini-1.5-flash")])
  /\ length (snd (handler Doubles.env_with_key
                    (Doubles.fetch_always Doubles.response_503)
                    Doubles.post_advice [])) = 1.
Proof.
  intros rq.
  destruct (@server_error_aborts_cascade Doubles.env_with_key
              (Doubles.fetch_always Doubles.response_503)
              Doubles.post_advice Doubles.prompt_post_advice
              "test-key" [] []
              ("v1beta", "gemini-1.5-flash")
              (tl (candidates Doubles.env_with_key))
              Doubles.response_503) as [Hrun Hlog].
  - reflexivity.
  - reflexivity.
  - reflexivity.
  - discriminate.
  - reflexivity.
  - apply all_fail_nil.
  - reflexivity.
  - reflexivity.
  - cbn. lia.
  - split.
    + exact Hrun.
    + exact (f_equal (fun res => length (snd res)) Hlog).
Defined.

(** C3, as the code has it.  A candidate whose call resolves with [r.ok]
    (and whose body parses) ends the cascade at once, whether or not the
    extraction yields text: the response carries the provider tag
    [gemini:<version>:<model>] of that very candidate and the extracted
    text, or the empty string when there is none.  Conversely the loops
    hand back a response only in that case. *)
Theorem ok_response_is_the_success_exit env fetch apiKey prompt log :
  (forall pre ver model post r data,
     candidates env = (pre ++ (ver, model) :: post)%list ->
     all_fail_retryably fetch apiKey prompt log pre ->
     fetch (log ++ map (request_for apiKey prompt) pre)%list
           (request_for apiKey prompt (ver, model)) = Returns r ->
     r_ok r = true ->
     r_json r = Returns data ->
     for_versions fetch apiKey prompt versions (models env) "" log
     = (Returns (Return {| status := 200;
                           json := AdvisoryPayload
                                     (or_else (extract data) (VStr ""))
                                     ("gemini:" ++ ver ++ ":" ++ model)
                                     None |}),
        (log ++ map (request_for apiKey prompt) pre
             ++ [request_for apiKey prompt (ver, model)])%list))
  /\ (forall res log',
        for_versions fetch apiKey prompt versions (models env) "" log
        = (Returns (Return res), log') ->
        exists pre ver model post r data,
          candidates env = (pre ++ (ver, model) :: post)%list
          /\ all_fail_retryably fetch apiKey prompt log pre
          /\ fetch (log ++ map (request_for apiKey prompt) pre)%list
                   (request_for apiKey prompt (ver, model)) = Returns r
          /\ r_ok r = true
          /\ r_json r = Returns data
          /\ res = {| status := 200;
                      json := AdvisoryPayload
                                (or_else (extract data) (VStr ""))
                                ("gemini:" ++ ver ++ ":" ++ model) None |}
          /\ log' = (log ++ map (request_for apiKey prompt) pre
                         ++ [request_for apiKey prompt (ver, model)])%list).
Proof.
  split.
  - intros pre ver model post r data Hsplit Hpre Hf Hok Hj.
    rewrite for_versions_flat. fold (candidates env). rewrite Hsplit.
    destruct (skip_failures ((ver, model) :: post) "" Hpre)
      as (last' & _ & ->).
    rewrite app_assoc. eapply candidate_ok; eassumption.
  - intros res log' H.
    rewrite for_versions_flat in H. fold (candidates env) in H.
    apply for_candidates_Return_inv in H. exact H.
Qed.

Lemma ok_response_is_the_success_exit_witness :
  for_versions (Doubles.fetch_nth_ok 11) "test-key"
    Doubles.prompt_post_advice versions (models Doubles.env_with_key)
    "" []
  = (Returns (Return {| status := 200;
                        json := AdvisoryPayload
                                  (or_else
                                     (extract
                                        (Doubles.gemini_answer
                                           "Pack an umbrella."))
                                     (VStr ""))
                                  ("gemini:" ++ "v1" ++ ":" ++ "gemini-1.5-pro")
                                  None |}),
     ([] ++ map (request_for "test-key" Doubles.prompt_post_advice)
              (removelast (candidates Doubles.env_with_key))
         ++ [request_for "test-key" Doubles.prompt_post_advice
               ("v1", "gemini-1.5-pro")])%list).
Proof.
  destruct (ok_response_is_the_success_exit Doubles.env_with_key
              (Doubles.fetch_nth_ok 11) "test-key"
              Doubles.prompt_post_advice []) as [Hok _].
  apply (Hok (removelast (candidates Doubles.env_with_key))
             "v1" "gemini-1.5-pro" [] Doubles.response_ok_text
             (Doubles.gemini_answer "Pack an umbrella.")).
  - reflexivity.
  - intros pre c post E.
    exists Doubles.response_404, "model not found".
    repeat split. cbn [app]. unfold Doubles.fetch_nth_ok.
    rewrite length_map.
    apply (f_equal (@length _)) in E. rewrite length_app in E.
    cbn in E.
    destruct (Nat.eqb_spec (length pre) 11) as [E11|_]; [lia | reflexivity].
  - reflexivity.
  - reflexivity.
  - reflexivity.
Defined.

(** C3 as stated fails: a successful response with nothing to extract is
    answered as a success, with the first candidate's tag and empty text. *)
Lemma ok_without_text_is_a_success_exit :
  ~ success_exit_has_text Doubles.env_with_key
      (Doubles.fetch_always Doubles.response_ok_empty) Doubles.post_advice.
Proof.
  intros H.
  specialize (H (VStr "") "gemini:v1beta:gemini-1.5-flash" None
                [request_for "test-key" Doubles.prompt_post_advice
                   ("v1beta", "gemini-1.5-flash")]
                eq_refl eq_refl).
  discriminate H.
Qed.

(** C10. A POST is always answered with status 200 and a payload carrying
    a provider tag; any exception of the cascade, the server-error abort
    included, and any exception of the prompt's construction before it,
    ends in the fixed non-empty stub with provider [stub-error]; any other
    method is answered 405, the only status besides 200. *)
Theorem handler_always_answers env fetch req log :
  (method req = "POST" ->
   exists text provider errorInfo,
     fst (handler env fetch req log)
     = Returns {| status := 200;
                  json := AdvisoryPayload text provider errorInfo |})
  /\ (method req <> "POST" ->
      handler env fetch req log
      = (Returns {| status := 405; json := ErrorPayload "Method not allowed" |},
         log))
  /\ (forall prompt e log',
        method req = "POST" ->
        prompt_of req = Returns prompt ->
        truthy_env (GEMINI_API_KEY env) = true ->
        for_versions fetch (or_default (GEMINI_API_KEY env) "") prompt
          versions (models env) "" log = (Throws e, log') ->
        handler env fetch req log
        = (Returns {| status := 200;
                      json := AdvisoryPayload (VStr stub_on_error)
                                "stub-error" None |}, log'))
  /\ (forall e,
        method req = "POST" ->
        prompt_of req = Throws e ->
        handler env fetch req log
        = (Returns {| status := 200;
                      json := AdvisoryPayload (VStr stub_on_error)
                                "stub-error" None |}, log))
  /\ stub_on_error <> ""
  /\ (forall res,
        fst (handler env fetch req log) = Returns res ->
        status res <> 200%Z ->
        method req <> "POST" /\ status res = 405%Z).
Proof.
  assert (Hpost : method req = "POST" ->
    exists text provider errorInfo,
      fst (handler env fetch req log)
      = Returns {| status := 200;
                   json := AdvisoryPayload text provider errorInfo |}).
  { intros Hm. destruct (prompt_of req) as [prompt|e] eqn:Hp.
    2:{ rewrite (handler_prompt_throws env fetch req log Hm Hp).
        do 3 eexists. reflexivity. }
    destruct (truthy_env (GEMINI_API_KEY env)) eqn:Hk.
    - rewrite (handler_with_key env fetch req log Hm Hp Hk).
      destruct (for_versions _ _ _ _ _ _ _) as [[[res|last']|e] log'] eqn:Hrun.
      + rewrite for_versions_flat in Hrun.
        apply for_candidates_Return_inv in Hrun
          as (pre & ver & model & post & r & data & _ & _ & _ & _ & _ & -> & _).
        do 3 eexists. reflexivity.
      + do 3 eexists. reflexivity.
      + do 3 eexists. reflexivity.
    - rewrite (handler_without_key env fetch req log Hm Hp Hk).
      do 3 eexists. reflexivity. }
  assert (Hother : method req <> "POST" ->
    handler env fetch req log
    = (Returns {| status := 405; json := ErrorPayload "Method not allowed" |},
       log)).
  { intros Hm. unfold handler. now rewrite (method_not_POST _ Hm). }
  repeat split.
  - exact Hpost.
  - exact Hother.
  - intros prompt e log' Hm Hp Hk Hrun.
    rewrite (handler_with_key env fetch req log Hm Hp Hk).
    now rewrite Hrun.
  - intros e Hm Hp. now apply handler_prompt_throws with (e := e).
  - apply stub_on_error_nonempty.
  - intros Hm. destruct (Hpost Hm) as (text & provider & errorInfo & E).
    rewrite E in H. injection H as <-. now apply H0.
  - destruct (String.eqb_spec (method req) "POST") as [Hm|Hm].
    + destruct (Hpost Hm) as (text & provider & errorInfo & E).
      rewrite E in H. injection H as <-. now contradiction H0.
    + rewrite (Hother Hm) in H. injection H as <-. reflexivity.
Qed.

Lemma handler_always_answers_witness :
  handler Doubles.env_with_key (Doubles.fetch_always Doubles.response_503)
    Doubles.post_advice []
  = (Returns {| status := 200;
                json := AdvisoryPayload (VStr stub_on_error) "stub-error"
                          None |},
     [request_for "test-key" Doubles.prompt_post_advice
        ("v1beta", "gemini-1.5-flash")])
  /\ handler Doubles.env_with_key (Doubles.fetch_always Doubles.response_503)
       Doubles.get_request []
     = (Returns {| status := 405;
                   json := ErrorPayload "Method not allowed" |}, []).
Proof.
  split.
  - destruct (handler_always_answers Doubles.env_with_key
                (Doubles.fetch_always Doubles.response_503)
                Doubles.post_advice []) as (_ & _ & Hcatch & _).
    apply (Hcatch Doubles.prompt_post_advice
             "Gemini API server error 503: unavailable"); reflexivity.
  - destruct (handler_always_answers Doubles.env_with_key
                (Doubles.fetch_always Doubles.response_503)
                Doubles.get_request []) as (_ & H405 & _).
    apply H405. discriminate.
Defined.

(** Whatever the provider does, the calls of a request are those of a
    prefix of the candidate list, in order, each carrying the prompt built
    from the request; there is none when the prompt cannot be built. *)
Lemma handler_calls env fetch req log :
  match prompt_of req with
  | Returns prompt =>
      exists n,
        snd (handler env fetch req log)
        = (log ++ map (request_for (or_default (GEMINI_API_KEY env) "")
                                   prompt)
                      (firstn n (candidates env)))%list
  | Throws _ => snd (handler env fetch req log) = log
  end.
Proof.
  destruct (String.eqb_spec (method req) "POST") as [Hm|Hm].
  - destruct (prompt_of req) as [prompt|e] eqn:Hp.
    2:{ now rewrite (handler_prompt_throws env fetch req log Hm Hp). }
    destruct (truthy_env (GEMINI_API_KEY env)) eqn:Hk.
    + rewrite (handler_with_key env fetch req log Hm Hp Hk).
      destruct (for_candidates_calls fetch
                  (or_default (GEMINI_API_KEY env) "") prompt
                  (candidates env) "" log) as (n & Hn).
      exists n. rewrite for_versions_flat. fold (candidates env).
      destruct (for_candidates _ _ _ _ _ _) as [[[res|last']|e] log'];
        exact Hn.
    + exists 0. rewrite (handler_without_key env fetch req log Hm Hp Hk).
      cbn. now rewrite app_nil_r.
  - assert (E : snd (handler env fetch req log) = log).
    { unfold handler. now rewrite (method_not_POST _ Hm). }
    destruct (prompt_of req); [|exact E].
    exists 0. rewrite E. cbn. now rewrite app_nil_r.
Qed.

(** The four ways a POST is answered: the three stubs and a candidate's
    answer. *)
Lemma handler_exits env fetch req log :
  method req = "POST" ->
  fst (handler env fetch req log)
  = Returns {| status := 200;
               json := AdvisoryPayload (VStr stub_no_key) "stub" None |}
  \/ (exists lastErrText,
        fst (handler env fetch req log)
        = Returns {| status := 200;
                     json := AdvisoryPayload (VStr stub_unavailable)
                               "stub-fallback" (Some lastErrText) |})
  \/ fst (handler env fetch req log)
     = Returns {| status := 200;
                  json := AdvisoryPayload (VStr stub_on_error) "stub-error"
                            None |}
  \/ (exists ver model data,
        In (ver, model) (candidates env)
        /\ fst (handler env fetch req log)
           = Returns {| status := 200;
                        json := AdvisoryPayload
                                  (or_else (extract data) (VStr ""))
                                  ("gemini:" ++ ver ++ ":" ++ model) None |}).
Proof.
  intros Hm. destruct (prompt_of req) as [prompt|e0] eqn:Hp.
  2:{ rewrite (handler_prompt_throws env fetch req log Hm Hp).
      right; right; left. reflexivity. }
  destruct (truthy_env (GEMINI_API_KEY env)) eqn:Hk.
  - rewrite (handler_with_key env fetch req log Hm Hp Hk).
    destruct (for_versions _ _ _ _ _ _ _) as [[[res|last']|e] log'] eqn:Hrun.
    + rewrite for_versions_flat in Hrun. fold (candidates env) in Hrun.
      apply for_candidates_Return_inv in Hrun
        as (pre & ver & model & post & r & data & Hsplit & _ & _ & _ & _
            & -> & _).
      right; right; right. exists ver, model, data.
      split; [|reflexivity]. rewrite Hsplit. apply in_elt.
    + right; left. exists last'. reflexivity.
    + right; right; left. reflexivity.
  - rewrite (handler_without_key env fetch req log Hm Hp Hk).
    left. reflexivity.
Qed.

End ServerFacts.

(* ================================================================== *)
(** ** Facts about the two prompt builders *)
(* ================================================================== *)

Module PromptFacts.
Import JS JSFacts.










End PromptFacts.

(* ================================================================== *)
(** ** Facts about components/AIAdvisor.jsx *)
(* ================================================================== *)

Module ClientFacts.
Import JS JSFacts Client.
Local Open Scope list_scope.

Ltac unfold_M :=
  unfold Client.bind, Client.call, Client.await, Client.ret, Client.throw,
         Client.try_catch, Client.try_finally, Client.setAdvice,
         Client.setProvider, Client.setLoading, Client.setAiStatus,
         Client.setLanguage, Client.update in *.

(** Case analysis on the scrutinee of the first [match] of the goal. *)
Ltac case_match :=
  match goal with
  | |- context [match ?x with _ => _ end] =>
      lazymatch x with
      | context [match _ with _ => _ end] => fail
      | _ => destruct x eqn:?
      end
  end.

Lemma probes_app log calls : probes (log ++ calls) = probes log + probes calls.
Proof. unfold probes. now rewrite filter_app, length_app. Qed.

Lemma session_opens_app log calls :
  session_opens (log ++ calls) = session_opens log + session_opens calls.
Proof. unfold session_opens. now rewrite filter_app, length_app. Qed.

Lemma prompts_app log calls :
  prompts (log ++ calls) = prompts log + prompts calls.
Proof. unfold prompts. now rewrite filter_app, length_app. Qed.

Lemma remote_calls_app log calls :
  remote_calls (log ++ calls) = remote_calls log + remote_calls calls.
Proof. unfold remote_calls. now rewrite filter_app, length_app. Qed.

Section Component.

Variable window : option Window.
Variable fetch : Log -> FetchRequest -> Outcome FetchResponse.
Variable props : Props.

Ltac unfold_generate :=
  unfold generate, on_device, server_fallback, query_readiness, open_session,
    supportsPromptAPI;
  unfold_M; cbn [fst snd].

Ltac absurd_ready :=
  match goal with
  | H : is_ready None = true |- _ => discriminate H
  end.

Ltac split_cases :=
  repeat (case_match; cbn [fst snd advice language provider loading aiStatus] in *;
          try absurd_ready).

Ltac rewrite_hyps :=
  repeat match goal with
         | H : ?x = _ |- context [?x] => rewrite H
         end.

Ltac close_exit :=
  repeat split; cbn [advice provider]; rewrite ?app_nil_r;
  try eassumption; try reflexivity;
  try (apply negb_false_iff; assumption).

Ltac remote_case :=
  right; left; unfold remote_exit, readiness_calls; rewrite_hyps;
  do 5 eexists; close_exit.

(** Every action ends in one of the three ways, and [generate] itself
    never throws. *)
Lemma generate_exits mode log st :
  let res := generate window fetch props mode (log, st) in
  fst res = Returns tt
  /\ exists calls,
       fst (snd res) = log ++ calls
       /\ (on_device_exit window props mode log st calls (snd (snd res))
           \/ remote_exit window fetch props mode log st calls (snd (snd res))
           \/ error_exit (snd (snd res))).
Proof.
  unfold_generate. split_cases.
  all: split; [reflexivity|].
  all: rewrite <- ?app_assoc in *; cbn [app] in *.
  all: eexists; split; [first [reflexivity | symmetry; apply app_nil_r]|].
  all: try (right; right; split; reflexivity).
  - left. unfold on_device_exit. do 7 eexists. close_exit.
  - remote_case.
  - remote_case.
  - remote_case.
  - remote_case.
Qed.

(** *** The on-device path and the delegation *)

(** The state an action leaves when it ends on the on-device path. *)
Lemma on_device_run mode log st a can create answer session ctx output text :
  window_ai window = Some a ->
  canCreateTextSession a = Some can ->
  createTextSession a = Some create ->
  can log = Returns answer ->
  is_ready (Some answer) = true ->
  create (log ++ [CanCreateTextSession]) (session_options mode)
  = Returns session ->
  buildContext props = Returns ctx ->
  session_prompt session
    (log ++ [CanCreateTextSession; CreateTextSession (session_options mode)])
    (prompt mode (language st) (advice st) ctx) = Returns output ->
  to_String (or_else output (VStr "")) = Returns text ->
  generate window fetch props mode (log, st)
  = (Returns tt,
     (log ++ [CanCreateTextSession;
              CreateTextSession (session_options mode);
              SessionPrompt (prompt mode (language st) (advice st) ctx)],
      {| advice := text; loading := false; language := language st;
         provider := VStr "on-device (Gemini Nano)";
         aiStatus := aiStatus st |})).
Proof.
  intros Ha Hcan Hcreate Hanswer Hready Hsession Hctx Hout Htext.
  unfold_generate. rewrite Ha, Hcreate, Hcan. cbn [fst snd].
  rewrite Hanswer, Hready. cbn [fst snd].
  rewrite Hsession, Hctx. cbn [fst snd language advice].
  rewrite <- !app_assoc. cbn [app].
  rewrite Hout, Htext. reflexivity.
Qed.

(** When the on-device branch is not entered, the action calls the server
    route, once, after the readiness query if there was one. *)
Lemma delegated_log mode log st ctx :
  buildContext props = Returns ctx ->
  supportsPromptAPI window = false
  \/ (exists a, window_ai window = Some a
                /\ (canCreateTextSession a = None
                    \/ exists can answer,
                         canCreateTextSession a = Some can
                         /\ can log = Returns answer
                         /\ is_ready (Some answer) = false)) ->
  fst (snd (generate window fetch props mode (log, st)))
  = log ++ readiness_calls window
        ++ [FetchCall (advice_request mode (language st) (advice st) ctx)].
Proof.
  intros Hctx Hskip. unfold readiness_calls.
  destruct Hskip as [Hno | (a & Ha & [Hnone | (can & answer & Hcan & Hans & Hr)])].
  - unfold_generate. unfold supportsPromptAPI in Hno. rewrite_hyps.
    cbn [fst snd]. rewrite_hyps.
    destruct (window_ai window) as [a|].
    + destruct (createTextSession a); [discriminate|].
      split_cases; reflexivity.
    + split_cases; reflexivity.
  - unfold_generate. rewrite Ha, Hnone, Hctx.
    destruct (createTextSession a); cbn [fst snd is_ready];
      split_cases; rewrite <- ?app_assoc; reflexivity.
  - unfold_generate. rewrite Ha, Hcan, Hctx.
    destruct (createTextSession a); cbn [fst snd]; rewrite ?Hans, ?Hr;
      cbn [fst snd]; split_cases; rewrite <- ?app_assoc; reflexivity.
Qed.

Lemma remote_calls_readiness : remote_calls (readiness_calls window) = 0.
Proof.
  unfold readiness_calls.
  destruct (window_ai window) as [a|]; [|reflexivity].
  destruct (createTextSession a), (canCreateTextSession a); reflexivity.
Qed.

(** [String(v || '')] is empty when [v] is falsy and [v] itself when [v] is
    a non-empty string. *)
Lemma String_or_empty (v : Value) (s : string) :
  to_String (or_else v (VStr "")) = Returns s ->
  (truthy v = false -> s = ""%string)
  /\ (forall x, v = VStr x -> x <> ""%string -> s = x).
Proof.
  unfold or_else. intros H. split.
  - intros Hf. rewrite Hf in H. cbn in H. congruence.
  - intros x -> Hx. apply truthy_VStr in Hx. rewrite Hx in H. cbn in H.
    congruence.
Qed.

(** An action always settles: [generate] returns, the in-flight flag is
    cleared, and it has opened at most one session, prompted at most once
    and called the server route at most once. *)
Lemma generate_settles mode log st :
  let res := generate window fetch props mode (log, st) in
  fst res = Returns tt
  /\ loading (snd (snd res)) = false
  /\ session_opens (fst (snd res)) <= session_opens log + 1
  /\ prompts (fst (snd res)) <= prompts log + 1
  /\ remote_calls (fst (snd res)) <= remote_calls log + 1.
Proof.
  unfold_generate. split_cases.
  all: rewrite ?session_opens_app, ?prompts_app, ?remote_calls_app; cbn.
  all: repeat split; lia.
Qed.

(** C1, as the code has it.  Every action settles and never retries:
    [generate] returns with the in-flight flag cleared, having opened at
    most one session, prompted at most once and called the server route at
    most once.  An action whose readiness query answers [readily] or
    [after-download], whose session opens and whose prompt resolves settles
    on the on-device path with the text [String(output || '')] - the empty
    string for an empty or undefined output - and calls the server route
    not at all.  The server route is called, exactly once, when the
    on-device branch is not entered - the Prompt API is not supported, or
    the readiness query is missing or answers anything else - and
    [buildContext] returns the context to send. *)
Theorem ready_action_settles_on_device mode log st :
  (fst (generate window fetch props mode (log, st)) = Returns tt
   /\ loading (snd (snd (generate window fetch props mode (log, st)))) = false
   /\ session_opens (fst (snd (generate window fetch props mode (log, st))))
      <= session_opens log + 1
   /\ prompts (fst (snd (generate window fetch props mode (log, st))))
      <= prompts log + 1
   /\ remote_calls (fst (snd (generate window fetch props mode (log, st))))
      <= remote_calls log + 1)
  /\ (forall a can create answer session ctx output text,
     window_ai window = Some a ->
     canCreateTextSession a = Some can ->
     createTextSession a = Some create ->
     can log = Returns answer ->
     answer = "readily"%string \/ answer = "after-download"%string ->
     create (log ++ [CanCreateTextSession]) (session_options mode)
     = Returns session ->
     buildContext props = Returns ctx ->
     session_prompt session
       (log ++ [CanCreateTextSession; CreateTextSession (session_options mode)])
       (prompt mode (language st) (advice st) ctx) = Returns output ->
     to_String (or_else output (VStr "")) = Returns text ->
     generate window fetch props mode (log, st)
     = (Returns tt,
        (log ++ [CanCreateTextSession;
                 CreateTextSession (session_options mode);
                 SessionPrompt (prompt mode (language st) (advice st) ctx)],
         {| advice := text; loading := false; language := language st;
            provider := VStr "on-device (Gemini Nano)";
            aiStatus := aiStatus st |}))
     /\ remote_calls (fst (snd (generate window fetch props mode (log, st))))
        = remote_calls log
     /\ (truthy output = false -> text = ""%string))
  /\ (forall ctx,
        buildContext props = Returns ctx ->
        supportsPromptAPI window = false
        \/ (exists a, window_ai window = Some a
                      /\ (canCreateTextSession a = None
                          \/ exists can answer,
                               canCreateTextSession a = Some can
                               /\ can log = Returns answer
                               /\ is_ready (Some answer) = false)) ->
        fst (snd (generate window fetch props mode (log, st)))
        = log ++ readiness_calls window
              ++ [FetchCall (advice_request mode (language st) (advice st) ctx)]
        /\ remote_calls (fst (snd (generate window fetch props mode (log, st))))
           = remote_calls log + 1).
Proof.
  split; [apply generate_settles | split].
  - intros a can create answer session ctx output text
           Ha Hcan Hcreate Hanswer Hready Hsession Hctx Hout Htext.
    assert (Hr : is_ready (Some answer) = true)
      by (destruct Hready as [-> | ->]; reflexivity).
    rewrite (@on_device_run mode log st a can create answer session ctx
               output text Ha Hcan Hcreate Hanswer Hr Hsession Hctx Hout
               Htext).
    repeat split.
    + cbn [fst snd]. rewrite remote_calls_app. cbn. lia.
    + apply (@String_or_empty output text Htext).
  - intros ctx Hctx Hskip.
    rewrite (@delegated_log mode log st ctx Hctx Hskip).
    split; [reflexivity|].
    rewrite !remote_calls_app, remote_calls_readiness. cbn. lia.
Qed.

(** *** The readiness queries of a page session *)

Lemma mount_probes :
  probes (fst (mount window))
  = match window_ai window with
    | Some a =>
        match canCreateTextSession a with
        | Some _ => 1
        | None => 0
        end
    | None => 0
    end.
Proof.
  unfold mount, checkAI, window_ai.
  destruct window as [w|]; [|reflexivity].
  destruct (ai w) as [a|]; [|reflexivity].
  unfold_M. destruct (canCreateTextSession a) as [can|]; [|reflexivity].
  cbn [fst snd]. destruct (can []); reflexivity.
Qed.

Lemma generate_probes mode log st :
  probes (fst (snd (generate window fetch props mode (log, st))))
  = probes log + length (readiness_calls window).
Proof.
  unfold readiness_calls. unfold_generate. split_cases.
  all: rewrite ?probes_app; cbn; lia.
Qed.

(** [generate] neither reads nor writes [aiStatus]. *)
Lemma generate_ignores_aiStatus mode log st status :
  generate window fetch props mode
    (log, {| advice := advice st; loading := loading st;
             language := language st; provider := provider st;
             aiStatus := status |})
  = let res := generate window fetch props mode (log, st) in
    (fst res,
     (fst (snd res),
      {| advice := advice (snd (snd res)); loading := loading (snd (snd res));
         language := language (snd (snd res));
         provider := provider (snd (snd res));
         aiStatus := status |})).
Proof.
  unfold_generate. cbn [advice language loading provider aiStatus].
  split_cases; reflexivity.
Qed.

(** C8, as the code has it.  Mounting runs [checkAI] once, with at most
    one readiness query, and stores the answer for display.  Every
    [generate] action queries readiness again - once when the Prompt API is
    supported and [canCreateTextSession] is there, not at all otherwise -
    and neither reads nor writes the stored [aiStatus]: it decides from the
    fresh answer. *)
Theorem generate_probes_again mode log st status :
  probes (fst (mount window)) <= 1
  /\ probes (fst (snd (generate window fetch props mode (log, st))))
     = probes log + length (readiness_calls window)
  /\ (supportsPromptAPI window = true ->
      (exists a can, window_ai window = Some a
                     /\ canCreateTextSession a = Some can) ->
      probes (fst (snd (generate window fetch props mode (log, st))))
      = probes log + 1)
  /\ generate window fetch props mode
       (log, {| advice := advice st; loading := loading st;
                language := language st; provider := provider st;
                aiStatus := status |})
     = (fst (generate window fetch props mode (log, st)),
        (fst (snd (generate window fetch props mode (log, st))),
         {| advice := advice (snd (snd (generate window fetch props mode (log, st))));
            loading := loading (snd (snd (generate window fetch props mode (log, st))));
            language := language (snd (snd (generate window fetch props mode (log, st))));
            provider := provider (snd (snd (generate window fetch props mode (log, st))));
            aiStatus := status |})).
Proof.
  repeat split.
  - rewrite mount_probes. destruct (window_ai window) as [a|]; [|lia].
    destruct (canCreateTextSession a); lia.
  - apply generate_probes.
  - intros Hs (a & can & Ha & Hcan). rewrite generate_probes.
    unfold readiness_calls. unfold supportsPromptAPI in Hs.
    rewrite Ha in *. rewrite Hcan.
    destruct (createTextSession a); [reflexivity | discriminate].
  - apply generate_ignores_aiStatus.
Qed.

End Component.

Lemma ready_action_settles_on_device_witness :
  (advice (snd (snd (generate
                       (Doubles.window_with "readily"
                          (Doubles.session_answering
                             (VStr "Pack an umbrella.")))
                       Doubles.route_down Doubles.props_lax_jfk "advice"
                       ([], initial))))
   = "Pack an umbrella."%string
   /\ remote_calls
        (fst (snd (generate
                     (Doubles.window_with "readily"
                        (Doubles.session_answering
                           (VStr "Pack an umbrella.")))
                     Doubles.route_down Doubles.props_lax_jfk "advice"
                     ([], initial))))
      = remote_calls [])
  /\ remote_calls
       (fst (snd (generate Doubles.window_without_ai Doubles.route_down
                    Doubles.props_lax_jfk "advice" ([], initial))))
     = remote_calls [] + 1.
Proof.
  split.
  - destruct (ready_action_settles_on_device
                (Doubles.window_with "readily"
                   (Doubles.session_answering (VStr "Pack an umbrella.")))
                Doubles.route_down Doubles.props_lax_jfk "advice" [] initial)
      as (_ & Hon & _).
    destruct (Hon (Doubles.ai_with "readily"
                     (Doubles.session_answering (VStr "Pack an umbrella.")))
                  (fun _ => Returns "readily"%string)
                  (fun _ _ =>
                     Returns (Doubles.session_answering
                                (VStr "Pack an umbrella.")))
                  "readily"%string
                  (Doubles.session_answering (VStr "Pack an umbrella."))
                  Doubles.context_lax_jfk (VStr "Pack an umbrella.")
                  "Pack an umbrella."%string)
      as (Hres & Hremote & _);
      try reflexivity; [left; reflexivity|].
    split; [|exact Hremote].
    exact (f_equal (fun res => advice (snd (snd res))) Hres).
  - destruct (ready_action_settles_on_device Doubles.window_without_ai
                Doubles.route_down Doubles.props_lax_jfk "advice" [] initial)
      as (_ & _ & Hoff).
    destruct (Hoff Doubles.context_lax_jfk) as (_ & Hremote);
      [reflexivity | left; reflexivity|].
    exact Hremote.
Defined.

Lemma generate_probes_again_witness :
  probes (fst (snd (generate
                      (Doubles.window_with "readily"
                         (Doubles.session_answering
                            (VStr "Pack an umbrella.")))
                      Doubles.route_down Doubles.props_lax_jfk "advice"
                      ([CanCreateTextSession], initial))))
  = probes [CanCreateTextSession] + 1.
Proof.
  destruct (generate_probes_again
              (Doubles.window_with "readily"
                 (Doubles.session_answering (VStr "Pack an umbrella.")))
              Doubles.route_down Doubles.props_lax_jfk "advice"
              [CanCreateTextSession] initial None) as (_ & _ & Hagain & _).
  apply Hagain; [reflexivity|]. do 2 eexists. split; reflexivity.
Defined.

(** C1 as stated fails: the readiness query answers [readily], the session
    opens and its prompt resolves with [undefined]; the action settles on
    the on-device path with an empty advisory and the server route is not
    called. *)
Lemma empty_output_is_not_delegated :
  let window := Doubles.window_with "readily"
                  (Doubles.session_answering VUndefined) in
  let res := generate window
               (Doubles.route_served Doubles.env_no_key Doubles.fetch_down)
               Doubles.props_lax_jfk "advice" ([], initial) in
  is_ready (Some "readily"%string) = true
  /\ truthy VUndefined = false
  /\ remote_calls (fst (snd res)) = 0
  /\ remote_calls (fst (snd res)) <> 1
  /\ advice (snd (snd res)) = ""%string
  /\ provider (snd (snd res)) = VStr "on-device (Gemini Nano)".
Proof. cbv zeta. repeat split. cbn. discriminate. Qed.

(** A prompt that rejects ends in the [catch] block, the server route not
    having been called. *)
Lemma rejected_prompt_ends_in_catch :
  let window := Doubles.window_with "readily" Doubles.session_throwing in
  let res := generate window
               (Doubles.route_served Doubles.env_no_key Doubles.fetch_down)
               Doubles.props_lax_jfk "advice" ([], initial) in
  remote_calls (fst (snd res)) = 0
  /\ advice (snd (snd res)) = unable_text
  /\ provider (snd (snd res)) = VStr "error".
Proof. cbv zeta. repeat split. Qed.

(** C8 as stated fails: with on-device inference ready, mounting and one
    click on Generate make two readiness queries. *)
Lemma one_click_probes_twice :
  probes (fst (session
                 (Doubles.window_with "readily"
                    (Doubles.session_answering (VStr "Pack an umbrella.")))
                 Doubles.route_down Doubles.props_lax_jfk [ClickGenerate]))
  = 2
  /\ probes (fst (session
                    (Doubles.window_with "readily"
                       (Doubles.session_answering (VStr "Pack an umbrella.")))
                    Doubles.route_down Doubles.props_lax_jfk [ClickGenerate]))
     <> 1.
Proof. split; [reflexivity | discriminate]. Qed.

End ClientFacts.

(* ================================================================== *)
(** ** The pipeline end to end *)
(* ================================================================== *)

Module PipelineFacts.
Import JS JSFacts.

(** C2, as the code has it.  A POST is answered with one of the three
    stubs, whose texts are fixed and non-empty, or with a candidate's
    answer, whose text is [extracted || '']: truthy or the empty string.
    Every action of the component ends on the on-device exit, on the
    remote exit or in the [catch] block: the advisory is
    [String(output || '')], [String(j.text || '')] or the fixed non-empty
    fallback text.  Those coercions give the upstream text when it is a
    non-empty string and the empty string when it is empty or undefined. *)
Theorem advisory_text_nonempty_unless_upstream_empty :
  (forall env provider req log,
     Server.method req = "POST" ->
     fst (Server.handler env provider req log)
     = Returns {| Server.status := 200;
                  Server.json :=
                    Server.AdvisoryPayload (VStr Server.stub_no_key) "stub"
                      None |}
     \/ (exists lastErrText,
           fst (Server.handler env provider req log)
           = Returns {| Server.status := 200;
                        Server.json :=
                          Server.AdvisoryPayload (VStr Server.stub_unavailable)
                            "stub-fallback" (Some lastErrText) |})
     \/ fst (Server.handler env provider req log)
        = Returns {| Server.status := 200;
                     Server.json :=
                       Server.AdvisoryPayload (VStr Server.stub_on_error)
                         "stub-error" None |}
     \/ (exists ver model data,
           In (ver, model) (Server.candidates env)
           /\ fst (Server.handler env provider req log)
              = Returns {| Server.status := 200;
                           Server.json :=
                             Server.AdvisoryPayload
                               (or_else (Server.extract data) (VStr ""))
                               ("gemini:" ++ ver ++ ":" ++ model) None |}))
  /\ (Server.stub_no_key <> "" /\ Server.stub_unavailable <> ""
      /\ Server.stub_on_error <> "" /\ Client.unable_text <> "")
  /\ (forall v, truthy (or_else v (VStr "")) = true
                \/ or_else v (VStr "") = VStr "")
  /\ (forall window fetch props mode log st,
        let res := Client.generate window fetch props mode (log, st) in
        fst res = Returns tt
        /\ exists calls,
             fst (snd res) = (log ++ calls)%list
             /\ (Client.on_device_exit window props mode log st calls
                   (snd (snd res))
                 \/ Client.remote_exit window fetch props mode log st calls
                      (snd (snd res))
                 \/ Client.error_exit (snd (snd res))))
  /\ (forall v s,
        to_String (or_else v (VStr "")) = Returns s ->
        (truthy v = false -> s = "")
        /\ (forall x, v = VStr x -> x <> "" -> s = x)).
Proof.
  split; [|split; [|split; [|split]]].
  - intros env provider req log. apply ServerFacts.handler_exits.
  - repeat split; discriminate.
  - apply or_empty_cases.
  - intros window fetch props mode log st.
    apply ClientFacts.generate_exits.
  - apply ClientFacts.String_or_empty.
Qed.

Lemma advisory_text_nonempty_unless_upstream_empty_witness :
  exists ver model data,
    In (ver, model) (Server.candidates Doubles.env_with_key)
    /\ fst (Server.handler Doubles.env_with_key
              (Doubles.fetch_always Doubles.response_ok_text)
              Doubles.post_advice [])
       = Returns {| Server.status := 200;
                    Server.json :=
                      Server.AdvisoryPayload
                        (or_else (Server.extract data) (VStr ""))
                        ("gemini:" ++ ver ++ ":" ++ model) None |}.
Proof.
  destruct advisory_text_nonempty_unless_upstream_empty as (Hserver & _).
  destruct (Hserver Doubles.env_with_key
              (Doubles.fetch_always Doubles.response_ok_text)
              Doubles.post_advice [] eq_refl)
    as [H | [(e & H) | [H | H]]].
  - discriminate H.
  - discriminate H.
  - discriminate H.
  - exact H.
Defined.

(** C2 as stated fails: without on-device inference, with a credential
    and a provider whose successful response holds no text, a click on
    Generate leaves an empty advisory under the first candidate's tag. *)
Lemma candidate_without_text_gives_empty_advisory :
  let w := Client.session Doubles.window_without_ai
             (Doubles.route_served Doubles.env_with_key
                (Doubles.fetch_always Doubles.response_ok_empty))
             Doubles.props_lax_jfk [Client.ClickGenerate] in
  Client.advice (snd w) = ""
  /\ Client.provider (snd w) = VStr "gemini:v1beta:gemini-1.5-flash"
  /\ Client.loading (snd w) = false.
Proof. cbv zeta. repeat split. Qed.

(** *** The scenarios of the specification *)

(** The request double is the body the first click sends. *)
Example first_click_request_is_sent :
  Client.buildContext Doubles.props_lax_jfk = Returns Doubles.context_lax_jfk
  /\ (forall ctx,
        Client.buildContext Doubles.props_lax_jfk = Returns ctx ->
        f_body (Client.advice_request "advice" "en" "" ctx)
        = stringify "" (Server.body Doubles.first_click_request)).
Proof.
  split; [reflexivity|]. intros ctx H. injection H as <-. reflexivity.
Qed.

(** No on-device inference, no credential: the demo stub. *)
Example scenario_stub :
  let w := Client.session Doubles.window_without_ai
             (Doubles.route_served Doubles.env_no_key Doubles.fetch_down)
             Doubles.props_lax_jfk [Client.ClickGenerate] in
  Client.advice (snd w) = Server.stub_no_key
  /\ Client.provider (snd w) = VStr "stub"
  /\ Client.aiStatus (snd w) = Some "unavailable"
  /\ Client.remote_calls (fst w) = 1.
Proof. cbv zeta. repeat split. Qed.

(** On-device inference ready and answering: no call to the server. *)
Example scenario_on_device :
  let w := Client.session
             (Doubles.window_with "readily"
                (Doubles.session_answering (VStr "Pack an umbrella.")))
             Doubles.route_down Doubles.props_lax_jfk [Client.ClickGenerate] in
  Client.advice (snd w) = "Pack an umbrella."
  /\ Client.provider (snd w) = VStr "on-device (Gemini Nano)"
  /\ Client.remote_calls (fst w) = 0.
Proof. cbv zeta. repeat split. Qed.

(** Every candidate unknown but the last: the last candidate answers. *)
Example scenario_last_candidate :
  let res := Server.handler Doubles.env_with_key (Doubles.fetch_nth_ok 11)
               Doubles.post_advice [] in
  fst res
  = Returns {| Server.status := 200;
               Server.json :=
                 Server.AdvisoryPayload (VStr "Pack an umbrella.")
                   "gemini:v1:gemini-1.5-pro" None |}
  /\ length (snd res) = 12.
Proof. cbv zeta. split; reflexivity. Qed.

(** The server route unreachable: the fixed fallback text. *)
Example scenario_route_down :
  let w := Client.session Doubles.window_without_ai Doubles.route_down
             Doubles.props_lax_jfk [Client.ClickGenerate] in
  Client.advice (snd w) = Client.unable_text
  /\ Client.provider (snd w) = VStr "error".
Proof. cbv zeta. split; reflexivity. Qed.

End PipelineFacts.

(* ================================================================== *)
(** ** More facts about pages/api/ai-advice.js *)
(* ================================================================== *)

Module ServerMore.
Import JS JSFacts Server ServerFacts.

Section Cascade.

Variable fetch : Fetch.
Variables apiKey prompt : string.

Local Abbreviation rq := (request_for apiKey prompt).

Lemma recorded_after_cons ver model t last last' log cs r :
  fetch log (rq (ver, model)) = Returns r ->
  r_text r = Returns t ->
  recorded_after fetch apiKey prompt ("(" ++ ver ++ "/" ++ model ++ ") " ++ t)
    (log ++ [rq (ver, model)])%list cs last' ->
  recorded_after fetch apiKey prompt last log ((ver, model) :: cs) last'.
Proof.
  intros Hf Ht [Hnil Hlast]. split; [discriminate|].
  intros pre0 c E. destruct pre0 as [|c0 pre0].
  - injection E as <- Hcs. cbn [map]. rewrite app_nil_r.
    exists r, t. repeat split; try assumption. now apply Hnil.
  - injection E as <- ->. cbn [map].
    destruct (Hlast pre0 c eq_refl) as (r' & t' & Hf' & Ht' & ->).
    exists r', t'. repeat split; try assumption.
    now rewrite <- app_assoc in Hf'.
Qed.

(** The flat loop is exhausted only when every candidate was called and
    failed in the candidate-specific way. *)
Lemma for_candidates_Exhausted_inv cs last log last' log' :
  for_candidates fetch apiKey prompt cs last log
  = (Returns (Exhausted last'), log') ->
  all_fail_retryably fetch apiKey prompt log cs
  /\ log' = (log ++ map rq cs)%list
  /\ recorded_after fetch apiKey prompt last log cs last'.
Proof.
  revert last log. induction cs as [|[ver model] cs IH]; intros last log H.
  - cbn in H. injection H as <- <-. split; [|split].
    + apply all_fail_nil.
    + cbn. now rewrite app_nil_r.
    + split; [reflexivity|]. intros [|? ?] ? E; discriminate.
  - destruct (fetch log (rq (ver, model))) as [r|e] eqn:Hf.
    2:{ cbn [for_candidates for_models] in H. unfold_M.
        rewrite Hf in H. discriminate. }
    destruct (r_ok r) eqn:Hok.
    { cbn [for_candidates for_models] in H. unfold_M.
      rewrite Hf, Hok in H. destruct (r_json r); discriminate. }
    destruct (r_text r) as [t|e] eqn:Ht.
    2:{ cbn [for_candidates for_models] in H. unfold_M.
        rewrite Hf, Hok, Ht in H. discriminate. }
    destruct (Z.lt_ge_cases (r_status r) 500) as [Hs|Hs].
    + rewrite (@candidate_retry fetch apiKey prompt ver model cs last log r t
                 Hf Hok Hs Ht) in H.
      apply IH in H as (Hall & -> & Hrec). split; [|split].
      * apply all_fail_cons; [|assumption].
        exists r, t. repeat split; assumption.
      * cbn [map]. now rewrite <- app_assoc.
      * eapply recorded_after_cons; eassumption.
    + rewrite (@candidate_abort fetch apiKey prompt ver model cs last log r t
                 Hf Hok (Z.le_ge _ _ Hs) Ht) in H.
      discriminate.
Qed.

(** The flat loop throws only at a candidate that was reached and whose
    attempt ended the cascade. *)
Lemma for_candidates_Throws_inv cs last log e log' :
  for_candidates fetch apiKey prompt cs last log = (Throws e, log') ->
  exists pre c post,
    cs = (pre ++ c :: post)%list
    /\ all_fail_retryably fetch apiKey prompt log pre
    /\ aborts_with (fetch (log ++ map rq pre)%list (rq c)) e
    /\ log' = (log ++ map rq pre ++ [rq c])%list.
Proof.
  revert last log. induction cs as [|[ver model] cs IH]; intros last log H.
  - discriminate.
  - assert (Hhere : forall e0,
      aborts_with (fetch log (rq (ver, model))) e0 ->
      (@Throws Flow e, log') = (Throws e0, (log ++ [rq (ver, model)])%list) ->
      exists pre c post,
        (ver, model) :: cs = (pre ++ c :: post)%list
        /\ all_fail_retryably fetch apiKey prompt log pre
        /\ aborts_with (fetch (log ++ map rq pre)%list (rq c)) e
        /\ log' = (log ++ map rq pre ++ [rq c])%list).
    { intros e0 Hab E. injection E as -> ->.
      exists [], (ver, model), cs. cbn [map app]. rewrite app_nil_r.
      repeat split; try assumption. apply all_fail_nil. }
    destruct (fetch log (rq (ver, model))) as [r|e0] eqn:Hf.
    2:{ cbn [for_candidates for_models] in H. unfold_M.
        rewrite Hf in H. apply (Hhere e0); [now left | now symmetry]. }
    destruct (r_ok r) eqn:Hok.
    { cbn [for_candidates for_models] in H. unfold_M.
      rewrite Hf, Hok in H. destruct (r_json r) as [data|e0] eqn:Hj;
        [discriminate|].
      apply (Hhere e0); [|now symmetry].
      right. exists r. split; [reflexivity|]. left. now split. }
    destruct (r_text r) as [t|e0] eqn:Ht.
    2:{ cbn [for_candidates for_models] in H. unfold_M.
        rewrite Hf, Hok, Ht in H.
        apply (Hhere e0); [|now symmetry].
        right. exists r. split; [reflexivity|]. right; left. now split. }
    destruct (Z.lt_ge_cases (r_status r) 500) as [Hs|Hs].
    + clear Hhere. rewrite (@candidate_retry fetch apiKey prompt ver model cs last log r t
                 Hf Hok Hs Ht) in H.
      apply IH in H as (pre & c & post & -> & Hpre & Hab & ->).
      exists ((ver, model) :: pre), c, post. cbn [map app].
      rewrite <- !app_assoc in *. cbn [app] in *.
      repeat split; try assumption.
      apply all_fail_cons; [|assumption].
      exists r, t. repeat split; assumption.
    + rewrite (@candidate_abort fetch apiKey prompt ver model cs last log r t
                 Hf Hok (Z.le_ge _ _ Hs) Ht) in H.
      refine (Hhere _ _ (eq_sym H)).
      right. exists r. split; [reflexivity|]. right; right.
      split; [assumption|]. exists t. repeat split; try assumption.
      now apply Z.le_ge.
Qed.

(** An attempt that ends the cascade, at its turn, makes the flat loop
    throw after the calls up to it. *)
Lemma candidate_aborts c cs last log e :
  aborts_with (fetch log (rq c)) e ->
  for_candidates fetch apiKey prompt (c :: cs) last log
  = (Throws e, (log ++ [rq c])%list).
Proof.
  destruct c as [ver model].
  intros [Hf | (r & Hf & [[Hok Hj] | [[Hok Ht] | (Hok & t & Ht & Hs & ->)]])].
  - cbn [for_candidates for_models]. unfold_M. now rewrite Hf.
  - cbn [for_candidates for_models]. unfold_M. now rewrite Hf, Hok, Hj.
  - cbn [for_candidates for_models]. unfold_M. now rewrite Hf, Hok, Ht.
  - eapply candidate_abort; eassumption.
Qed.

End Cascade.

Lemma truthy_env_Some e :
  truthy_env e = true -> exists k, e = Some k /\ k <> "".
Proof.
  destruct e as [k|]; [|discriminate]. cbn. intros H. exists k.
  split; [reflexivity|]. intros ->. discriminate.
Qed.

(** How the handler answers when an attempt, at its turn, ends the
    cascade. *)
Lemma handler_abort_at env fetch req prompt apiKey log pre c post e :
  method req = "POST" ->
  prompt_of req = Returns prompt ->
  GEMINI_API_KEY env = Some apiKey ->
  apiKey <> "" ->
  candidates env = (pre ++ c :: post)%list ->
  all_fail_retryably fetch apiKey prompt log pre ->
  aborts_with (fetch (log ++ map (request_for apiKey prompt) pre)%list
                     (request_for apiKey prompt c)) e ->
  handler env fetch req log
  = (Returns {| status := 200;
                json := AdvisoryPayload (VStr stub_on_error) "stub-error"
                          None |},
     (log ++ map (request_for apiKey prompt) pre
          ++ [request_for apiKey prompt c])%list).
Proof.
  intros Hm Hp Hk Hne Hsplit Hpre Hab.
  rewrite (@handler_with_key env fetch req prompt log Hm Hp)
    by (rewrite Hk; auto using truthy_key).
  rewrite for_versions_flat. fold (candidates env). rewrite Hsplit, Hk.
  cbn [or_default].
  destruct (@skip_failures fetch apiKey prompt pre (c :: post) ""
              log Hpre) as (last' & _ & ->).
  rewrite (@candidate_aborts fetch apiKey prompt c post last' _ e Hab).
  now rewrite app_assoc.
Qed.

(** The handler answers [stub-fallback] only after it has called every
    candidate, in order, and every call has failed with a status below
    500; [errorInfo] is then the text recorded for the last candidate. *)
Theorem stub_fallback_only_after_all_candidates
    env fetch req log text errorInfo log' :
  handler env fetch req log
  = (Returns {| status := 200;
                json := AdvisoryPayload text "stub-fallback" errorInfo |},
     log') ->
  exists apiKey prompt last',
    method req = "POST"
    /\ prompt_of req = Returns prompt
    /\ GEMINI_API_KEY env = Some apiKey
    /\ apiKey <> ""
    /\ text = VStr stub_unavailable
    /\ errorInfo = Some last'
    /\ all_fail_retryably fetch apiKey prompt log (candidates env)
    /\ log' = (log ++ map (request_for apiKey prompt)
                         (candidates env))%list
    /\ recorded_after fetch apiKey prompt "" log (candidates env)
         last'.
Proof.
  intros H.
  destruct (String.eqb_spec (method req) "POST") as [Hm|Hm].
  2:{ unfold handler in H. rewrite (method_not_POST _ Hm) in H.
      discriminate. }
  destruct (prompt_of req) as [prompt|e0] eqn:Hp.
  2:{ rewrite (handler_prompt_throws env fetch req log Hm Hp) in H.
      discriminate. }
  destruct (truthy_env (GEMINI_API_KEY env)) eqn:Hk.
  2:{ rewrite (handler_without_key env fetch req log Hm Hp Hk) in H.
      discriminate. }
  rewrite (handler_with_key env fetch req log Hm Hp Hk) in H.
  destruct (truthy_env_Some _ Hk) as (apiKey & Hkey & Hne).
  rewrite Hkey in H. cbn [or_default] in H.
  destruct (for_versions _ _ _ _ _ _ _) as [[[res|last']|e] log0] eqn:Hrun.
  - rewrite for_versions_flat in Hrun.
    apply for_candidates_Return_inv in Hrun
      as (pre & ver & model & post & r & data & _ & _ & _ & _ & _ & -> & _).
    discriminate.
  - injection H as <- <- <-.
    rewrite for_versions_flat in Hrun. fold (candidates env) in Hrun.
    apply for_candidates_Exhausted_inv in Hrun as (Hall & Hlog & Hrec).
    exists apiKey, prompt, last'.
    repeat split; try assumption; try reflexivity.
    + apply Hrec.
    + apply Hrec.
  - discriminate.
Qed.

Lemma stub_fallback_only_after_all_candidates_witness :
  exists apiKey prompt last',
    method Doubles.post_advice = "POST"
    /\ prompt_of Doubles.post_advice = Returns prompt
    /\ GEMINI_API_KEY Doubles.env_with_key = Some apiKey
    /\ apiKey <> ""
    /\ VStr stub_unavailable = VStr stub_unavailable
    /\ Some "(v1/gemini-1.5-pro) model not found" = Some last'
    /\ all_fail_retryably (Doubles.fetch_always Doubles.response_404) apiKey
         prompt [] (candidates Doubles.env_with_key)
    /\ map (request_for "test-key" Doubles.prompt_post_advice)
           (candidates Doubles.env_with_key)
       = ([] ++ map (request_for apiKey prompt)
                   (candidates Doubles.env_with_key))%list
    /\ recorded_after (Doubles.fetch_always Doubles.response_404) apiKey
         prompt "" []
         (candidates Doubles.env_with_key) last'.
Proof.
  exact (@stub_fallback_only_after_all_candidates Doubles.env_with_key
           (Doubles.fetch_always Doubles.response_404) Doubles.post_advice
           [] (VStr stub_unavailable)
           (Some "(v1/gemini-1.5-pro) model not found")
           (map (request_for "test-key" Doubles.prompt_post_advice)
                (candidates Doubles.env_with_key))
           eq_refl).
Defined.

(** The handler answers [stub-error] only after the prompt could not be
    built - no provider call is made then - or after an attempt that was
    reached ended the cascade: its call rejected, its body could not be
    read, or its failed status was 500 or more.  In that case at least one
    provider call was made, and none after that attempt. *)
Theorem stub_error_only_after_an_aborting_attempt
    env fetch req log text errorInfo log' :
  handler env fetch req log
  = (Returns {| status := 200;
                json := AdvisoryPayload text "stub-error" errorInfo |},
     log') ->
  method req = "POST"
  /\ text = VStr stub_on_error
  /\ errorInfo = None
  /\ ((exists e, prompt_of req = Throws e /\ log' = log)
      \/ (exists apiKey prompt pre c post e,
            prompt_of req = Returns prompt
            /\ GEMINI_API_KEY env = Some apiKey
            /\ apiKey <> ""
            /\ candidates env = (pre ++ c :: post)%list
            /\ all_fail_retryably fetch apiKey prompt log pre
            /\ aborts_with
                 (fetch (log ++ map (request_for apiKey prompt) pre)%list
                        (request_for apiKey prompt c)) e
            /\ log' = (log ++ map (request_for apiKey prompt) pre
                           ++ [request_for apiKey prompt c])%list)).
Proof.
  intros H.
  destruct (String.eqb_spec (method req) "POST") as [Hm|Hm].
  2:{ unfold handler in H. rewrite (method_not_POST _ Hm) in H.
      discriminate. }
  destruct (prompt_of req) as [prompt|e0] eqn:Hp.
  2:{ rewrite (handler_prompt_throws env fetch req log Hm Hp) in H.
      injection H as <- <- <-.
      split; [exact Hm|]. split; [reflexivity|]. split; [reflexivity|].
      left. exists e0. now split. }
  destruct (truthy_env (GEMINI_API_KEY env)) eqn:Hk.
  2:{ rewrite (handler_without_key env fetch req log Hm Hp Hk) in H.
      discriminate. }
  rewrite (handler_with_key env fetch req log Hm Hp Hk) in H.
  destruct (truthy_env_Some _ Hk) as (apiKey & Hkey & Hne).
  rewrite Hkey in H. cbn [or_default] in H.
  destruct (for_versions _ _ _ _ _ _ _) as [[[res|last']|e] log0] eqn:Hrun.
  - rewrite for_versions_flat in Hrun.
    apply for_candidates_Return_inv in Hrun
      as (pre & ver & model & post & r & data & _ & _ & _ & _ & _ & -> & _).
    discriminate.
  - discriminate.
  - injection H as <- <- <-.
    rewrite for_versions_flat in Hrun. fold (candidates env) in Hrun.
    apply for_candidates_Throws_inv in Hrun
      as (pre & c & post & Hsplit & Hpre & Hab & Hlog).
    split; [exact Hm|]. split; [reflexivity|]. split; [reflexivity|].
    right. exists apiKey, prompt, pre, c, post, e.
    repeat split; try assumption; reflexivity.
Qed.

Lemma stub_error_only_after_an_aborting_attempt_witness :
  method Doubles.post_translate_unprintable = "POST"
  /\ VStr stub_on_error = VStr stub_on_error
  /\ @None string = None
  /\ ((exists e,
         prompt_of Doubles.post_translate_unprintable = Throws e
         /\ @nil FetchRequest = [])
      \/ (exists apiKey prompt pre c post e,
            prompt_of Doubles.post_translate_unprintable = Returns prompt
            /\ GEMINI_API_KEY Doubles.env_with_key = Some apiKey
            /\ apiKey <> ""
            /\ candidates Doubles.env_with_key = (pre ++ c :: post)%list
            /\ all_fail_retryably Doubles.fetch_down apiKey prompt [] pre
            /\ aborts_with
                 (Doubles.fetch_down
                    ([] ++ map (request_for apiKey prompt) pre)%list
                    (request_for apiKey prompt c)) e
            /\ [] = ([] ++ map (request_for apiKey prompt) pre
                         ++ [request_for apiKey prompt c])%list)).
Proof.
  exact (@stub_error_only_after_an_aborting_attempt Doubles.env_with_key
           Doubles.fetch_down Doubles.post_translate_unprintable []
           (VStr stub_on_error) None [] eq_refl).
Defined.

(** A call that rejects (a network failure) is not retried on the next
    candidate: the handler answers [stub-error] after the calls up to that
    one. *)
Theorem rejected_fetch_is_not_retried
    env fetch req prompt apiKey log pre c post e :
  method req = "POST" ->
  prompt_of req = Returns prompt ->
  GEMINI_API_KEY env = Some apiKey ->
  apiKey <> "" ->
  candidates env = (pre ++ c :: post)%list ->
  all_fail_retryably fetch apiKey prompt log pre ->
  fetch (log ++ map (request_for apiKey prompt) pre)%list
        (request_for apiKey prompt c) = Throws e ->
  handler env fetch req log
  = (Returns {| status := 200;
                json := AdvisoryPayload (VStr stub_on_error) "stub-error"
                          None |},
     (log ++ map (request_for apiKey prompt) pre
          ++ [request_for apiKey prompt c])%list).
Proof.
  intros Hm Hp Hk Hne Hsplit Hpre Hf.
  eapply handler_abort_at; try eassumption. left. exact Hf.
Qed.

Lemma rejected_fetch_is_not_retried_witness :
  handler Doubles.env_with_key Doubles.fetch_down Doubles.post_advice []
  = (Returns {| status := 200;
                json := AdvisoryPayload (VStr stub_on_error) "stub-error"
                          None |},
     ([] ++ map (request_for "test-key" Doubles.prompt_post_advice) []
         ++ [request_for "test-key" Doubles.prompt_post_advice
               ("v1beta", "gemini-1.5-flash")])%list).
Proof.
  apply (@rejected_fetch_is_not_retried Doubles.env_with_key
           Doubles.fetch_down Doubles.post_advice Doubles.prompt_post_advice
           "test-key" [] []
           ("v1beta", "gemini-1.5-flash")
           (tl (candidates Doubles.env_with_key)) "fetch failed").
  - reflexivity.
  - reflexivity.
  - reflexivity.
  - discriminate.
  - reflexivity.
  - apply all_fail_nil.
  - reflexivity.
Defined.

(** A response whose body cannot be read - [r.json()] rejecting on a
    successful response, [r.text()] on a failed one - is not retried on the
    next candidate either, whatever its status. *)
Theorem unreadable_body_is_not_retried
    env fetch req prompt apiKey log pre c post r e :
  method req = "POST" ->
  prompt_of req = Returns prompt ->
  GEMINI_API_KEY env = Some apiKey ->
  apiKey <> "" ->
  candidates env = (pre ++ c :: post)%list ->
  all_fail_retryably fetch apiKey prompt log pre ->
  fetch (log ++ map (request_for apiKey prompt) pre)%list
        (request_for apiKey prompt c) = Returns r ->
  (r_ok r = true /\ r_json r = Throws e)
  \/ (r_ok r = false /\ r_text r = Throws e) ->
  handler env fetch req log
  = (Returns {| status := 200;
                json := AdvisoryPayload (VStr stub_on_error) "stub-error"
                          None |},
     (log ++ map (request_for apiKey prompt) pre
          ++ [request_for apiKey prompt c])%list).
Proof.
  intros Hm Hp Hk Hne Hsplit Hpre Hf Hbody.
  eapply handler_abort_at with (e := e); try eassumption.
  right. exists r. split; [exact Hf|].
  destruct Hbody as [H | H]; [left | right; left]; exact H.
Qed.

Lemma unreadable_body_is_not_retried_witness :
  handler Doubles.env_with_key
    (Doubles.fetch_always
       {| r_ok := true; r_status := 200; r_json := Throws "SyntaxError";
          r_text := Returns "<html>" |})
    Doubles.post_advice []
  = (Returns {| status := 200;
                json := AdvisoryPayload (VStr stub_on_error) "stub-error"
                          None |},
     ([] ++ map (request_for "test-key" Doubles.prompt_post_advice) []
         ++ [request_for "test-key" Doubles.prompt_post_advice
               ("v1beta", "gemini-1.5-flash")])%list).
Proof.
  apply (@unreadable_body_is_not_retried Doubles.env_with_key
           (Doubles.fetch_always
              {| r_ok := true; r_status := 200; r_json := Throws "SyntaxError";
                 r_text := Returns "<html>" |})
           Doubles.post_advice Doubles.prompt_post_advice "test-key" [] []
           ("v1beta", "gemini-1.5-flash")
           (tl (candidates Doubles.env_with_key))
           {| r_ok := true; r_status := 200; r_json := Throws "SyntaxError";
              r_text := Returns "<html>" |}
           "SyntaxError").
  - reflexivity.
  - reflexivity.
  - reflexivity.
  - discriminate.
  - reflexivity.
  - apply all_fail_nil.
  - reflexivity.
  - left. split; reflexivity.
Defined.

(** *** The answer's shape *)

Lemma extract_first_part data text :
  first_part_text data text -> extract data = text.
Proof.
  intros (c0 & cs & p0 & ps & Hc & Hp & Ht). unfold extract.
  rewrite Hc. cbn [opt_first]. rewrite Hp. cbn [opt_first]. exact Ht.
Qed.

(** When the candidate that answers sends the provider's answer shape,
    the advisory is the text of the first part of the first candidate,
    whatever else the answer holds: further candidates and parts are
    dropped. *)
Theorem first_part_text_is_returned
    env fetch req prompt apiKey log pre ver model post r data t :
  method req = "POST" ->
  prompt_of req = Returns prompt ->
  GEMINI_API_KEY env = Some apiKey ->
  apiKey <> "" ->
  candidates env = (pre ++ (ver, model) :: post)%list ->
  all_fail_retryably fetch apiKey prompt log pre ->
  fetch (log ++ map (request_for apiKey prompt) pre)%list
        (request_for apiKey prompt (ver, model)) = Returns r ->
  r_ok r = true ->
  r_json r = Returns data ->
  first_part_text data (VStr t) ->
  t <> "" ->
  handler env fetch req log
  = (Returns {| status := 200;
                json := AdvisoryPayload (VStr t)
                          ("gemini:" ++ ver ++ ":" ++ model) None |},
     (log ++ map (request_for apiKey prompt) pre
          ++ [request_for apiKey prompt (ver, model)])%list).
Proof.
  intros Hm Hp Hk Hne Hsplit Hpre Hf Hok Hj Hshape Ht.
  rewrite (@handler_with_key env fetch req prompt log Hm Hp)
    by (rewrite Hk; auto using truthy_key).
  rewrite for_versions_flat. fold (candidates env). rewrite Hsplit, Hk.
  cbn [or_default].
  destruct (@skip_failures fetch apiKey prompt pre
              ((ver, model) :: post) "" log Hpre) as (last' & _ & ->).
  rewrite (@candidate_ok fetch apiKey prompt ver model post last' _
             r data Hf Hok Hj).
  rewrite (extract_first_part Hshape). unfold or_else.
  apply truthy_VStr in Ht. rewrite Ht. now rewrite app_assoc.
Qed.

Lemma first_part_text_is_returned_witness :
  handler Doubles.env_with_key
    (Doubles.fetch_always
       {| r_ok := true; r_status := 200;
          r_json :=
            Returns
              (VObj [("candidates",
                      VArr [VObj [("content",
                                   VObj [("parts",
                                          VArr [VObj [("text", VStr "First.")];
                                                VObj [("text", VStr "Second.")]]);
                                         ("role", VStr "model")]);
                                  ("finishReason", VStr "STOP")];
                            VObj []]);
                     ("usageMetadata", VObj [])]);
          r_text := Returns "" |})
    Doubles.post_advice []
  = (Returns {| status := 200;
                json := AdvisoryPayload (VStr "First.")
                          ("gemini:" ++ "v1beta" ++ ":" ++ "gemini-1.5-flash")
                          None |},
     ([] ++ map (request_for "test-key" Doubles.prompt_post_advice) []
         ++ [request_for "test-key" Doubles.prompt_post_advice
               ("v1beta", "gemini-1.5-flash")])%list).
Proof.
  eapply (@first_part_text_is_returned Doubles.env_with_key _
            Doubles.post_advice Doubles.prompt_post_advice "test-key" [] []
            "v1beta" "gemini-1.5-flash"
            (tl (candidates Doubles.env_with_key))).
  - reflexivity.
  - reflexivity.
  - reflexivity.
  - discriminate.
  - reflexivity.
  - apply all_fail_nil.
  - reflexivity.
  - reflexivity.
  - reflexivity.
  - do 4 eexists. repeat split.
  - discriminate.
Defined.

(** The tag of a POST's answer: one of the three stub tags or a
    candidate's. *)
Lemma handler_tag env fetch req log res :
  method req = "POST" ->
  fst (handler env fetch req log) = Returns res ->
  status res = 200%Z
  /\ exists text tag errorInfo,
       json res = AdvisoryPayload text tag errorInfo
       /\ ((tag = "stub" \/ tag = "stub-fallback" \/ tag = "stub-error")
           /\ startsWith tag "gemini:" = false
           \/ (exists ver model,
                 In (ver, model) (candidates env)
                 /\ tag = "gemini:" ++ ver ++ ":" ++ model)).
Proof.
  intros Hm H.
  destruct (handler_exits env fetch req log Hm)
    as [E | [(last' & E) | [E | (ver & model & data & Hin & E)]]];
    rewrite E in H; injection H as <-; (split; [reflexivity|]);
    do 3 eexists; (split; [reflexivity|]).
  - left. split; [now left | reflexivity].
  - left. split; [right; now left | reflexivity].
  - left. split; [right; now right | reflexivity].
  - right. exists ver, model. now split.
Qed.

(** *** The size of the cascade *)

Lemma Set_add_all_In x l seen :
  In x (Set_add_all seen l) <-> In x seen \/ In x l.
Proof.
  revert seen. induction l as [|y l IH]; intros seen; cbn [Set_add_all].
  - cbn. tauto.
  - rewrite IH. destruct (existsb (String.eqb y) seen) eqn:E.
    + apply existsb_eqb_In in E. cbn. split; [tauto|].
      intros [H | [<- | H]]; tauto.
    + rewrite in_app_iff. cbn. tauto.
Qed.

Lemma Set_add_all_length l seen :
  length (Set_add_all seen l) <= length seen + length l.
Proof.
  revert seen. induction l as [|y l IH]; intros seen; cbn [Set_add_all].
  - cbn. lia.
  - destruct (existsb (String.eqb y) seen).
    + specialize (IH seen). cbn. lia.
    + specialize (IH (seen ++ [y])%list). rewrite length_app in IH.
      cbn in *. lia.
Qed.

Lemma candidates_length env : length (candidates env) = 2 * length (models env).
Proof.
  unfold candidates, versions. cbn [flat_map].
  rewrite !length_app, !length_map.
  change (length (@nil (string * string))) with 0. lia.
Qed.

Lemma models_In env m :
  In m (models env)
  <-> In m [preferred env; preferred env ++ "-latest"; preferred env ++ "-002";
            "gemini-1.5-flash-8b"; "gemini-1.5-flash-8b-latest";
            "gemini-1.5-flash"; "gemini-1.5-flash-latest"; "gemini-1.5-pro"].
Proof.
  unfold models, Array_from_Set. rewrite Set_add_all_In. cbn. tauto.
Qed.

Lemma models_length env : 5 <= length (models env) <= 8.
Proof.
  split.
  - apply (@NoDup_incl_length _
             ["gemini-1.5-flash-8b"; "gemini-1.5-flash-8b-latest";
              "gemini-1.5-flash"; "gemini-1.5-flash-latest";
              "gemini-1.5-pro"] (models env)).
    + repeat constructor; cbn; intuition discriminate.
    + intros m Hm. apply models_In. cbn in *. tauto.
  - unfold models, Array_from_Set.
    etransitivity; [apply Set_add_all_length|]. cbn. lia.
Qed.

(** The candidate list has between 10 and 16 entries, whatever
    [GEMINI_MODEL] is, and a request never makes more than 16 provider
    calls, whatever the provider answers. *)
Theorem provider_calls_are_bounded env fetch req log :
  10 <= length (candidates env) <= 16
  /\ length (snd (handler env fetch req log)) <= length log + 16.
Proof.
  assert (Hc : 10 <= length (candidates env) <= 16)
    by (rewrite candidates_length; generalize (models_length env); lia).
  split; [exact Hc|].
  pose proof (handler_calls env fetch req log) as Hcalls.
  destruct (prompt_of req) as [prompt|e].
  - destruct Hcalls as (n & ->).
    rewrite length_app, length_map, length_firstn. lia.
  - rewrite Hcalls. lia.
Qed.

(** Deduplication loses no model: the candidates are exactly the pairs of
    one of the two versions with the preferred model, one of its two
    suffixed variants or one of the five built-in models. *)
Theorem candidates_are_versions_times_models env ver m :
  In (ver, m) (candidates env)
  <-> (ver = "v1beta" \/ ver = "v1")
      /\ In m [preferred env; preferred env ++ "-latest";
               preferred env ++ "-002";
               "gemini-1.5-flash-8b"; "gemini-1.5-flash-8b-latest";
               "gemini-1.5-flash"; "gemini-1.5-flash-latest";
               "gemini-1.5-pro"].
Proof.
  rewrite <- models_In. unfold candidates. rewrite in_flat_map. split.
  - intros (v & Hv & Hin). apply in_map_iff in Hin as (m' & E & Hm).
    injection E as -> ->. split; [|assumption].
    cbn in Hv. intuition congruence.
  - intros [Hv Hm]. exists ver. split.
    + cbn. intuition congruence.
    + apply in_map. assumption.
Qed.

(** *** The request *)

Lemma nat_of_ascii_bound c : nat_of_ascii c < 256.
Proof.
  destruct c as [[] [] [] [] [] [] [] []]; cbn; lia.
Qed.

Lemma hex_digit_unreserved d :
  d < 16 -> uri_unreserved (hex_digit true d) = true.
Proof.
  intros H. do 16 (destruct d as [|d]; [reflexivity|]). lia.
Qed.

Lemma every_app p a b : every p (a ++ b) = every p a && every p b.
Proof.
  induction a as [|c a IH]; cbn; [reflexivity|].
  now rewrite IH, andb_assoc.
Qed.

Lemma encodeURIComponent_safe s : every uri_safe (encodeURIComponent s) = true.
Proof.
  induction s as [|c s IH]; cbn [encodeURIComponent]; [reflexivity|].
  rewrite every_app, IH, andb_true_r.
  destruct (uri_unreserved c) eqn:E.
  - cbn. unfold uri_safe. now rewrite E.
  - pose proof (nat_of_ascii_bound c) as Hc.
    cbn [append every hex_byte]. unfold uri_safe.
    rewrite !hex_digit_unreserved.
    + reflexivity.
    + apply Nat.mod_upper_bound. lia.
    + apply Nat.Div0.div_lt_upper_bound. lia.
Qed.

Lemma encodeURIComponent_unreserved s :
  every uri_unreserved s = true -> encodeURIComponent s = s.
Proof.
  induction s as [|c s IH]; cbn; [reflexivity|].
  intros H. apply andb_true_iff in H as [Hc Hs].
  now rewrite Hc, IH.
Qed.

(** The key enters the request URL percent-encoded: after [?key=] the URL
    holds only letters, digits, [- _ . ! ~ * ' ( )] and percent signs, so a
    key cannot add a query parameter or a fragment; a key made of the
    unescaped characters alone is sent as it is. *)
Theorem key_is_percent_encoded apiKey prompt ver model :
  f_url (request_for apiKey prompt (ver, model))
  = base ++ "/" ++ ver ++ "/models/" ++ model ++ ":generateContent?key="
         ++ encodeURIComponent apiKey
  /\ every uri_safe (encodeURIComponent apiKey) = true
  /\ (every uri_unreserved apiKey = true ->
      encodeURIComponent apiKey = apiKey).
Proof.
  split; [reflexivity | split].
  - apply encodeURIComponent_safe.
  - apply encodeURIComponent_unreserved.
Qed.

Lemma key_is_percent_encoded_witness :
  f_url (request_for "a&b=c#d e" "" ("v1", "gemini-1.5-pro"))
  = "https://generativelanguage.googleapis.com/v1/models/gemini-1.5-pro:generateContent?key=a%26b%3Dc%23d%20e"
  /\ encodeURIComponent "AIza-test_KEY.123" = "AIza-test_KEY.123".
Proof.
  destruct (key_is_percent_encoded "a&b=c#d e" "" "v1" "gemini-1.5-pro")
    as (Hurl & _ & _).
  destruct (key_is_percent_encoded "AIza-test_KEY.123" "" "v1"
              "gemini-1.5-pro") as (_ & _ & Hsame).
  split; [exact Hurl | apply Hsame; reflexivity].
Defined.

End ServerMore.

(* ================================================================== *)
(** ** More facts about the two prompt builders *)
(* ================================================================== *)

Module PromptMore.
Import JS JSFacts.

(** Each mode reads only what it needs: [rewrite] neither the language
    nor the context, [translate] not the context, any other mode neither
    the language nor the prior text; and a mode that is neither
    [translate] nor [rewrite] is treated as [advice].  This holds for the
    handler's builder and for the on-device one. *)
Theorem prompt_reads_only_what_its_mode_needs
    (mode language advice : string) (context : Value) :
  (mode = "rewrite" ->
   forall language' context',
     Server.prompt mode language advice context
     = Server.prompt mode language' advice context'
     /\ Client.prompt mode language advice context
        = Client.prompt mode language' advice context')
  /\ (mode = "translate" ->
      forall context',
        Server.prompt mode language advice context
        = Server.prompt mode language advice context'
        /\ Client.prompt mode language advice context
           = Client.prompt mode language advice context')
  /\ (mode <> "translate" -> mode <> "rewrite" ->
      forall language' advice',
        Server.prompt mode language advice context
        = Server.prompt "advice" language' advice' context
        /\ Client.prompt mode language advice context
           = Client.prompt "advice" language' advice' context).
Proof.
  split; [|split].
  - intros -> language' context'. split; reflexivity.
  - intros -> context'. split; reflexivity.
  - intros H1 H2 language' advice'.
    apply String.eqb_neq in H1, H2.
    unfold Server.prompt, Client.prompt. rewrite H1, H2. split; reflexivity.
Qed.

Lemma prompt_reads_only_what_its_mode_needs_witness :
  Server.prompt "rewrite" "en" "Pack an umbrella." (VObj [])
  = Server.prompt "rewrite" "fr" "Pack an umbrella." VNull
  /\ Client.prompt "summary" "en" "Pack an umbrella." (VObj [])
     = Client.prompt "advice" "fr" "" (VObj []).
Proof.
  destruct (prompt_reads_only_what_its_mode_needs
              "rewrite" "en" "Pack an umbrella." (VObj [])) as (Hrewrite & _).
  destruct (prompt_reads_only_what_its_mode_needs
              "summary" "en" "Pack an umbrella." (VObj []))
    as (_ & _ & Hother).
  split.
  - exact (proj1 (Hrewrite eq_refl "fr" VNull)).
  - refine (proj2 (Hother _ _ "fr" "")); discriminate.
Defined.

(** The two tiers ask for the same thing: the [rewrite] prompts are the
    same text, the [translate] prompts differ in one punctuation mark
    before the prior text, and the handler's [advice] prompt is the
    on-device system prompt followed by the context. *)
Theorem prompts_mirror (language advice : string) (context : Value) :
  Server.prompt "rewrite" language advice context
  = Client.prompt "rewrite" language advice context
  /\ (exists head tail,
        Server.prompt "translate" language advice context
        = head ++ "." ++ tail
        /\ Client.prompt "translate" language advice context
           = head ++ ":" ++ tail
        /\ tail = LF ++ LF ++ advice)
  /\ Server.prompt "advice" language advice context
     = Client.systemPrompt ++ LF ++ LF ++ "JSON Context:" ++ LF
         ++ interpolate (stringify "  " context).
Proof.
  split; [reflexivity | split; [|reflexivity]].
  exists ("Translate the following advisory to " ++ language
          ++ " using clear, friendly travel English localized to the target language"),
         (LF ++ LF ++ advice).
  unfold Server.prompt, Client.prompt. cbn [String.eqb Ascii.eqb Bool.eqb].
  rewrite !append_assoc. repeat split.
Qed.

End PromptMore.

(* ================================================================== *)
(** ** More facts about components/AIAdvisor.jsx *)
(* ================================================================== *)

Unset Implicit Arguments.

Module ClientMore.
Import JS JSFacts Client ClientFacts.
Local Open Scope list_scope.

(** *** [buildContext] *)

Lemma before_T_prefix s : exists rest, s = (before_T s ++ rest)%string.
Proof.
  induction s as [|c s (rest & IH)]; cbn [before_T].
  - now exists ""%string.
  - destruct (Ascii.eqb c "T").
    + now exists (String c s).
    + exists rest. cbn. now rewrite <- IH.
Qed.

Lemma before_T_no_T s : every not_T (before_T s) = true.
Proof.
  induction s as [|c s IH]; cbn [before_T]; [reflexivity|].
  destruct (Ascii.eqb c "T") eqn:E; [reflexivity|].
  cbn [every]. unfold not_T at 1. now rewrite E, IH.
Qed.

Lemma before_T_split d t :
  every not_T d = true -> before_T (d ++ "T" ++ t)%string = d.
Proof.
  induction d as [|c d IH]; cbn; [reflexivity|].
  intros H. apply andb_true_iff in H as [Hc Hd].
  unfold not_T in Hc. apply negb_true_iff in Hc. rewrite Hc.
  f_equal. now apply IH.
Qed.

Section Component.

Variable window : option Window.
Variable fetch : Log -> FetchRequest -> Outcome FetchResponse.
Variable props : Props.

Ltac unfold_generate :=
  unfold generate, on_device, server_fallback, query_readiness, open_session,
    supportsPromptAPI;
  unfold_M; cbn [fst snd].

Ltac absurd_ready :=
  match goal with
  | H : is_ready None = true |- _ => discriminate H
  end.

Ltac split_cases :=
  repeat (case_match;
          cbn [fst snd advice language provider loading aiStatus] in *;
          try absurd_ready).

(** For a [Date] prop, the context carries the date part of its ISO
    rendering - what stands before the first [T], itself free of [T] -
    under [flight.date], the prediction or [null], and always serializes;
    for a date and time separated by [T] the date part is the date. *)
Theorem buildContext_of_a_date iso :
  date props = DateObject (Returns iso) ->
  exists ctx,
    buildContext props = Returns ctx
    /\ opt_get (opt_get ctx "flight") "date" = VStr (before_T iso)
    /\ (exists rest, iso = (before_T iso ++ rest)%string)
    /\ every not_T (before_T iso) = true
    /\ (forall d t, iso = (d ++ "T" ++ t)%string -> every not_T d = true ->
        before_T iso = d)
    /\ opt_get ctx "prediction" = or_else (prediction props) VNull
    /\ (truthy (prediction props) = false ->
        opt_get ctx "prediction" = VNull)
    /\ (forall gap, exists serialized, stringify gap ctx = Some serialized).
Proof.
  intros Hd. unfold buildContext. rewrite Hd. eexists. split; [reflexivity|].
  split; [reflexivity|]. split; [apply before_T_prefix|].
  split; [apply before_T_no_T|].
  split; [intros d t -> Hnt; now apply before_T_split|].
  split; [reflexivity|]. split.
  - intros Hf. cbn. unfold or_else. now rewrite Hf.
  - intros gap. apply stringify_defined. discriminate.
Qed.

(** *** What an action keeps and how much it calls *)

(** An action leaves [language] and [aiStatus] as they were and the
    in-flight flag cleared. *)
Lemma generate_keeps mode log st :
  let st' := snd (snd (generate window fetch props mode (log, st))) in
  language st' = language st /\ aiStatus st' = aiStatus st
  /\ loading st' = false.
Proof.
  unfold_generate. split_cases; repeat split.
Qed.

(** The calls of an action extend the log. *)
Lemma generate_extends mode log st :
  exists calls,
    fst (snd (generate window fetch props mode (log, st))) = log ++ calls
    /\ probes calls <= 1
    /\ session_opens calls + remote_calls calls <= 1
    /\ prompts calls + remote_calls calls <= 1
    /\ prompts calls <= session_opens calls
    /\ session_opens calls <= probes calls.
Proof.
  unfold_generate. split_cases.
  all: rewrite <- ?app_assoc; cbn [app].
  all: eexists; split; [first [reflexivity | symmetry; apply app_nil_r]|].
  all: cbn; lia.
Qed.

(** One action never takes both paths and never repeats a step: it
    adds at most one readiness query; a session is opened only after that
    query and prompted only after it was opened; and once a session was
    opened the server route is not called. *)
Theorem action_paths_are_exclusive mode log st :
  let log' := fst (snd (generate window fetch props mode (log, st))) in
  probes log' <= probes log + 1
  /\ session_opens log' - session_opens log <= probes log' - probes log
  /\ prompts log' - prompts log <= session_opens log' - session_opens log
  /\ (session_opens log' + remote_calls log'
      <= session_opens log + remote_calls log + 1)
  /\ (prompts log' + remote_calls log'
      <= prompts log + remote_calls log + 1).
Proof.
  cbv zeta. destruct (generate_extends mode log st)
    as (calls & -> & Hp & Ho & Hq & Hpo & Hop).
  rewrite probes_app, session_opens_app, prompts_app, remote_calls_app.
  lia.
Qed.

(** A context that cannot be built - the date is a [Date] whose
    [toISOString()] throws, or a value [String(date)] throws on - sends
    every action to the [catch] block before any prompt and any call of the
    server route. *)
Theorem unbuildable_context_ends_in_catch mode log st e :
  buildContext props = Throws e ->
  let res := generate window fetch props mode (log, st) in
  fst res = Returns tt
  /\ advice (snd (snd res)) = unable_text
  /\ provider (snd (snd res)) = VStr "error"
  /\ loading (snd (snd res)) = false
  /\ prompts (fst (snd res)) = prompts log
  /\ remote_calls (fst (snd res)) = remote_calls log.
Proof.
  intros Hctx. unfold_generate. rewrite Hctx. split_cases.
  all: rewrite ?prompts_app, ?remote_calls_app; cbn.
  all: repeat split; lia.
Qed.

(** *** The server route's answer *)

Lemma on_device_skipped mode language advice log st :
  supportsPromptAPI window = false
  \/ (exists a, window_ai window = Some a
                /\ (canCreateTextSession a = None
                    \/ exists can answer,
                         canCreateTextSession a = Some can
                         /\ can log = Returns answer
                         /\ is_ready (Some answer) = false)) ->
  on_device window props mode language advice (log, st)
  = (Returns false, (log ++ readiness_calls window, st)).
Proof.
  unfold on_device, query_readiness, readiness_calls.
  intros [Hno | (a & Ha & [Hnone | (can & answer & Hcan & Hans & Hr)])].
  - rewrite Hno. unfold supportsPromptAPI in Hno.
    destruct (window_ai window) as [a|].
    + destruct (createTextSession a); [discriminate|].
      unfold Client.ret. now rewrite app_nil_r.
    + unfold Client.ret. now rewrite app_nil_r.
  - unfold supportsPromptAPI. rewrite Ha, Hnone.
    destruct (createTextSession a); unfold_M; cbn [is_ready];
      now rewrite app_nil_r.
  - unfold supportsPromptAPI. rewrite Ha, Hcan.
    destruct (createTextSession a); unfold_M; cbn [fst snd].
    + now rewrite Hans, Hr.
    + now rewrite app_nil_r.
Qed.

(** With the on-device branch skipped, an action is the server fallback
    between the two writes of the in-flight flag. *)
Lemma generate_delegated mode log st :
  supportsPromptAPI window = false
  \/ (exists a, window_ai window = Some a
                /\ (canCreateTextSession a = None
                    \/ exists can answer,
                         canCreateTextSession a = Some can
                         /\ can log = Returns answer
                         /\ is_ready (Some answer) = false)) ->
  generate window fetch props mode (log, st)
  = Client.try_finally
      (Client.try_catch
         (server_fallback fetch props mode (language st) (advice st))
         (fun _ => Client.bind (setAdvice unable_text)
                     (fun _ => setProvider (VStr "error"))))
      (setLoading false)
      (log ++ readiness_calls window,
       {| advice := advice st; loading := true; language := language st;
          provider := provider st; aiStatus := aiStatus st |}).
Proof.
  intros Hskip. unfold generate.
  unfold Client.bind at 1. unfold setLoading at 1, Client.update at 1.
  cbn [fst snd].
  unfold Client.try_finally, Client.try_catch. unfold Client.bind at 1.
  rewrite (on_device_skipped mode (language st) (advice st) _ _ Hskip).
  reflexivity.
Qed.

(** When the server route cannot be reached, answers with a body that is
    not JSON, or answers with a status outside 200-299 - whatever its body
    says - the action ends in the [catch] block: the fixed fallback text
    under the provider [error], after that one call. *)
Theorem failed_route_ends_in_catch mode log st ctx :
  buildContext props = Returns ctx ->
  supportsPromptAPI window = false
  \/ (exists a, window_ai window = Some a
                /\ (canCreateTextSession a = None
                    \/ exists can answer,
                         canCreateTextSession a = Some can
                         /\ can log = Returns answer
                         /\ is_ready (Some answer) = false)) ->
  (exists e,
     fetch (log ++ readiness_calls window)
           (advice_request mode (language st) (advice st) ctx) = Throws e)
  \/ (exists r,
        fetch (log ++ readiness_calls window)
              (advice_request mode (language st) (advice st) ctx) = Returns r
        /\ ((exists e, r_json r = Throws e) \/ r_ok r = false)) ->
  generate window fetch props mode (log, st)
  = (Returns tt,
     (log ++ readiness_calls window
          ++ [FetchCall (advice_request mode (language st) (advice st) ctx)],
      {| advice := unable_text; loading := false; language := language st;
         provider := VStr "error"; aiStatus := aiStatus st |})).
Proof.
  intros Hctx Hskip Hfail. rewrite (generate_delegated mode log st Hskip).
  unfold server_fallback. unfold_M. rewrite Hctx. cbn [fst snd].
  rewrite <- app_assoc.
  destruct Hfail as [(e & Hf) | (r & Hf & [(e & Hj) | Hok])]; rewrite Hf.
  - reflexivity.
  - cbn [fst snd]. rewrite Hj. reflexivity.
  - cbn [fst snd]. destruct (r_json r) as [j|e]; [|reflexivity].
    rewrite Hok. cbn [negb].
    destruct (to_String _); reflexivity.
Qed.

(** When the server route is served by the handler and the handler's text
    is a string, the advisory shown is that text and the provider is the
    handler's tag, as they are. *)
Theorem served_advisory_is_shown
    mode log st ctx env provider' req plog res t tag errorInfo :
  buildContext props = Returns ctx ->
  supportsPromptAPI window = false
  \/ (exists a, window_ai window = Some a
                /\ (canCreateTextSession a = None
                    \/ exists can answer,
                         canCreateTextSession a = Some can
                         /\ can log = Returns answer
                         /\ is_ready (Some answer) = false)) ->
  Server.method req = "POST"%string ->
  fst (Server.handler env provider' req plog) = Returns res ->
  Server.json res = Server.AdvisoryPayload (VStr t) tag errorInfo ->
  fetch (log ++ readiness_calls window)
        (advice_request mode (language st) (advice st) ctx)
  = Returns (Server.response_of res) ->
  generate window fetch props mode (log, st)
  = (Returns tt,
     (log ++ readiness_calls window
          ++ [FetchCall (advice_request mode (language st) (advice st) ctx)],
      {| advice := t; loading := false; language := language st;
         provider := VStr tag; aiStatus := aiStatus st |})).
Proof.
  intros Hctx Hskip Hm Hres Hjson Hf.
  destruct (@ServerMore.handler_tag env provider' req plog res Hm Hres)
    as (Hstatus & text & tag' & ei & Hjson' & Htag).
  rewrite Hjson in Hjson'. injection Hjson' as <- <- <-.
  assert (Hne : truthy (VStr tag) = true).
  { destruct Htag as [[[-> | [-> | ->]] _] | (ver & model & _ & ->)];
      reflexivity. }
  rewrite (generate_delegated mode log st Hskip).
  unfold server_fallback. unfold_M. rewrite Hctx. cbn [fst snd].
  rewrite <- app_assoc. rewrite Hf. cbn [fst snd].
  unfold Server.response_of. cbn [r_json r_ok]. rewrite Hstatus, Hjson.
  cbn [Z.leb Z.compare Pos.compare Pos.compare_cont andb negb].
  assert (Htext : to_String (or_else (VStr t) (VStr "")) = Returns t).
  { unfold or_else. destruct (truthy (VStr t)) eqn:E; [reflexivity|].
    cbn in E. apply negb_false_iff, String.eqb_eq in E. now subst. }
  destruct errorInfo as [info|]; cbn [Server.payload_value get lookup
    String.eqb Ascii.eqb Bool.eqb fst snd];
    rewrite Htext; cbn [fst snd advice loading language provider aiStatus];
    unfold or_else; rewrite Hne; reflexivity.
Qed.

(** *** A page session *)

Lemma mount_state :
  snd (mount window)
  = {| advice := ""; loading := false; language := "en"; provider := VStr "";
       aiStatus := aiStatus (snd (mount window)) |}.
Proof.
  unfold mount, checkAI. destruct window as [w|]; [|reflexivity].
  destruct (ai w) as [a|]; [|reflexivity].
  unfold_M. destruct (canCreateTextSession a) as [can|]; [|reflexivity].
  cbn [fst snd]. destruct (can []); reflexivity.
Qed.

Lemma mount_log :
  fst (mount window) = [] \/ fst (mount window) = [CanCreateTextSession].
Proof.
  unfold mount, checkAI. destruct window as [w|]; [|now left].
  destruct (ai w) as [a|]; [|now left].
  unfold_M. destruct (canCreateTextSession a) as [can|]; [|now left].
  cbn [fst snd]. destruct (can []); now right.
Qed.

Lemma dispatch_extends ev w :
  exists calls,
    fst (snd (dispatch window fetch props ev w)) = fst w ++ calls
    /\ (is_click ev = false -> calls = [])
    /\ probes calls <= 1
    /\ session_opens calls + remote_calls calls <= 1
    /\ prompts calls + remote_calls calls <= 1.
Proof.
  destruct w as [log st].
  assert (Hnone : exists calls,
            log = log ++ calls
            /\ (is_click ev = false -> calls = [])
            /\ probes calls <= 1
            /\ session_opens calls + remote_calls calls <= 1
            /\ prompts calls + remote_calls calls <= 1).
  { exists []. rewrite app_nil_r. cbn. repeat split; lia. }
  assert (Hgen : forall mode, is_click ev = true ->
            exists calls,
              fst (snd (generate window fetch props mode (log, st)))
              = log ++ calls
              /\ (is_click ev = false -> calls = [])
              /\ probes calls <= 1
              /\ session_opens calls + remote_calls calls <= 1
              /\ prompts calls + remote_calls calls <= 1).
  { intros mode Hc. destruct (generate_extends mode log st)
      as (calls & E & Hp & Ho & Hq & _).
    exists calls. repeat split; try assumption. congruence. }
  destruct ev; cbn [dispatch fst snd].
  - destruct (loading st); [exact Hnone | now apply Hgen].
  - destruct (loading st || is_empty (advice st));
      [exact Hnone | now apply Hgen].
  - destruct (loading st || is_empty (advice st));
      [exact Hnone | now apply Hgen].
  - exact Hnone.
Qed.

Lemma dispatch_keeps ev w :
  loading (snd w) = false ->
  loading (snd (snd (dispatch window fetch props ev w))) = false
  /\ aiStatus (snd (snd (dispatch window fetch props ev w)))
     = aiStatus (snd w)
  /\ language (snd (snd (dispatch window fetch props ev w)))
     = match ev with
       | SelectLanguage value => value
       | _ => language (snd w)
       end.
Proof.
  destruct w as [log st]. cbn [snd]. intros Hl.
  assert (Hgen : forall mode,
            loading (snd (snd (generate window fetch props mode (log, st))))
            = false
            /\ aiStatus (snd (snd (generate window fetch props mode (log, st))))
               = aiStatus st
            /\ language (snd (snd (generate window fetch props mode (log, st))))
               = language st).
  { intros mode. destruct (generate_keeps mode log st) as (H1 & H2 & H3).
    repeat split; assumption. }
  destruct ev; cbn [dispatch fst snd].
  - rewrite Hl. apply Hgen.
  - destruct (loading st || is_empty (advice st)); [now repeat split|].
    apply Hgen.
  - destruct (loading st || is_empty (advice st)); [now repeat split|].
    apply Hgen.
  - repeat split. exact Hl.
Qed.

(** The language the select was last set to. *)
Lemma run_keeps evs w :
  loading (snd w) = false ->
  loading (snd (run window fetch props evs w)) = false
  /\ aiStatus (snd (run window fetch props evs w)) = aiStatus (snd w)
  /\ language (snd (run window fetch props evs w))
     = fold_left (fun l ev => match ev with
                              | SelectLanguage value => value
                              | _ => l
                              end) evs (language (snd w)).
Proof.
  revert w. induction evs as [|ev evs IH]; intros w Hl; cbn [run fold_left].
  - now repeat split.
  - destruct (dispatch_keeps ev w Hl) as (Hl' & Ha & Hlang).
    destruct (IH _ Hl') as (H1 & H2 & H3).
    rewrite H1, H2, H3, Ha, Hlang. now repeat split.
Qed.

(** Through any sequence of clicks and language selections the in-flight
    flag is clear after each event, the stored capability status stays
    what the mount probe made it, and the language is the last one
    selected ([en] if none was). *)
Theorem session_keeps_status_and_language evs :
  loading (snd (session window fetch props evs)) = false
  /\ aiStatus (snd (session window fetch props evs))
     = aiStatus (snd (mount window))
  /\ language (snd (session window fetch props evs))
     = fold_left (fun l ev => match ev with
                              | SelectLanguage value => value
                              | _ => l
                              end) evs "en"%string.
Proof.
  unfold session.
  assert (Hl : loading (snd (mount window)) = false)
    by (rewrite mount_state; reflexivity).
  destruct (run_keeps evs (mount window) Hl) as (H1 & H2 & H3).
  rewrite H3, mount_state. now repeat split.
Qed.

Lemma run_bounds evs w :
  let log' := fst (run window fetch props evs w) in
  probes log' <= probes (fst w) + length (filter is_click evs)
  /\ session_opens log' + remote_calls log'
     <= session_opens (fst w) + remote_calls (fst w)
        + length (filter is_click evs)
  /\ prompts log' + remote_calls log'
     <= prompts (fst w) + remote_calls (fst w)
        + length (filter is_click evs).
Proof.
  cbv zeta. revert w. induction evs as [|ev evs IH]; intros w; cbn [run filter].
  - lia.
  - destruct (dispatch_extends ev w) as (calls & E & Hnc & Hp & Ho & Hq).
    specialize (IH (snd (dispatch window fetch props ev w))).
    rewrite E in IH.
    rewrite probes_app, session_opens_app, prompts_app, remote_calls_app in IH.
    destruct (is_click ev) eqn:Hc.
    + cbn [length]. lia.
    + rewrite (Hnc eq_refl) in IH. cbn in IH. lia.
Qed.

(** A page session makes at most one readiness query at mount and one
    per click, and at most one inference or remote call per click: the
    sessions opened plus the calls of the server route, and likewise the
    prompts plus those calls, never exceed the number of clicks. *)
Theorem session_calls_are_bounded evs :
  let log := fst (session window fetch props evs) in
  probes log <= 1 + length (filter is_click evs)
  /\ session_opens log + remote_calls log <= length (filter is_click evs)
  /\ prompts log + remote_calls log <= length (filter is_click evs).
Proof.
  cbv zeta. unfold session.
  destruct (run_bounds evs (mount window)) as (Hp & Ho & Hq).
  destruct mount_log as [E | E]; rewrite E in *; cbn in *; lia.
Qed.

Lemma dispatch_idle ev w :
  advice (snd w) = ""%string ->
  is_generate_click ev = false ->
  fst (snd (dispatch window fetch props ev w)) = fst w
  /\ advice (snd (snd (dispatch window fetch props ev w))) = ""%string
  /\ provider (snd (snd (dispatch window fetch props ev w)))
     = provider (snd w).
Proof.
  destruct w as [log st]. cbn [fst snd]. intros Ha Hev.
  destruct ev as [| | |value]; cbn [is_generate_click] in Hev;
    try discriminate; cbn [dispatch fst snd].
  - rewrite Ha. cbn [is_empty String.eqb]. rewrite orb_true_r.
    now repeat split.
  - rewrite Ha. cbn [is_empty String.eqb]. rewrite orb_true_r.
    now repeat split.
  - now repeat split.
Qed.

Lemma run_idle evs w :
  advice (snd w) = ""%string ->
  forallb (fun ev => negb (is_generate_click ev)) evs = true ->
  fst (run window fetch props evs w) = fst w
  /\ advice (snd (run window fetch props evs w)) = ""%string
  /\ provider (snd (run window fetch props evs w)) = provider (snd w).
Proof.
  revert w. induction evs as [|ev evs IH]; intros w Ha Hev;
    cbn [run forallb] in *.
  - now repeat split.
  - apply andb_true_iff in Hev as [Hev1 Hev2].
    apply negb_true_iff in Hev1.
    destruct (dispatch_idle ev w Ha Hev1) as (D1 & D2 & D3).
    destruct (IH _ D2 Hev2) as (H1 & H2 & H3).
    rewrite H1, H2, H3, D1, D3. now repeat split.
Qed.

(** Until Generate is clicked there is nothing to translate or rewrite:
    clicks on Translate and Rewrite and language selections make no call
    at all and leave the advisory and the provider empty. *)
Theorem nothing_to_translate_before_an_advisory evs :
  forallb (fun ev => negb (is_generate_click ev)) evs = true ->
  fst (session window fetch props evs) = fst (mount window)
  /\ advice (snd (session window fetch props evs)) = ""%string
  /\ provider (snd (session window fetch props evs)) = VStr "".
Proof.
  intros Hev. unfold session.
  assert (Ha : advice (snd (mount window)) = ""%string)
    by (rewrite mount_state; reflexivity).
  destruct (run_idle evs (mount window) Ha Hev) as (H1 & H2 & H3).
  rewrite H1, H2, H3, mount_state. now repeat split.
Qed.

(** *** The status box after mount *)

(** The mount probe never throws, and the status box it leads to is:
    none without a [window]; the setup hint when [window.ai] is missing;
    the not-available box when the readiness query is missing or rejects;
    for an answer, the ready, download or not-available box - and a box
    with no content for any answer the component does not know. *)
Theorem mount_shows_one_banner :
  fst (checkAI window ([], initial)) = Returns tt
  /\ (window = None -> banner (aiStatus (snd (mount window))) = NoBanner)
  /\ (forall w, window = Some w -> ai w = None ->
      banner (aiStatus (snd (mount window))) = SetupBanner)
  /\ (forall a, window_ai window = Some a ->
      canCreateTextSession a = None
      \/ (exists can e, canCreateTextSession a = Some can
                        /\ can [] = Throws e) ->
      banner (aiStatus (snd (mount window))) = NotAvailableBanner)
  /\ (forall a can answer,
        window_ai window = Some a ->
        canCreateTextSession a = Some can ->
        can [] = Returns answer ->
        aiStatus (snd (mount window)) = Some answer
        /\ (answer = "readily"%string ->
            banner (aiStatus (snd (mount window))) = ReadyBanner)
        /\ (answer = "after-download"%string ->
            banner (aiStatus (snd (mount window))) = DownloadBanner)
        /\ (answer = "no"%string ->
            banner (aiStatus (snd (mount window))) = NotAvailableBanner)
        /\ (~ In answer [""; "readily"; "after-download"; "unavailable";
                         "no"; "error"]%string ->
            banner (aiStatus (snd (mount window))) = EmptyBanner)).
Proof.
  unfold mount, checkAI, window_ai. repeat split.
  - destruct window as [w|]; [|reflexivity].
    destruct (ai w) as [a|]; [|reflexivity].
    unfold_M. destruct (canCreateTextSession a) as [can|]; [|reflexivity].
    cbn [fst snd]. destruct (can []); reflexivity.
  - intros ->. reflexivity.
  - intros w -> ->. reflexivity.
  - intros a Ha Hq. destruct window as [w|]; [|discriminate].
    rewrite Ha. unfold_M.
    destruct Hq as [-> | (can & e & -> & Hc)]; [reflexivity|].
    cbn [fst snd]. now rewrite Hc.
  - destruct window as [w|]; [|discriminate].
    rewrite H, H0. unfold_M. cbn [fst snd]. now rewrite H1.
  - intros ->. destruct window as [w|]; [|discriminate].
    rewrite H, H0. unfold_M. cbn [fst snd]. now rewrite H1.
  - intros ->. destruct window as [w|]; [|discriminate].
    rewrite H, H0. unfold_M. cbn [fst snd]. now rewrite H1.
  - intros ->. destruct window as [w|]; [|discriminate].
    rewrite H, H0. unfold_M. cbn [fst snd]. now rewrite H1.
  - intros Hn. destruct window as [w|]; [|discriminate].
    rewrite H, H0. unfold_M. cbn [fst snd]. rewrite H1.
    cbn [snd aiStatus banner]. unfold is_empty.
    cbn [In] in Hn.
    destruct (String.eqb_spec answer "") as [->|_]; [tauto|].
    destruct (String.eqb_spec answer "readily") as [->|_]; [tauto|].
    destruct (String.eqb_spec answer "after-download") as [->|_]; [tauto|].
    destruct (String.eqb_spec answer "unavailable") as [->|_]; [tauto|].
    destruct (String.eqb_spec answer "no") as [->|_]; [tauto|].
    destruct (String.eqb_spec answer "error") as [->|_]; [tauto|].
    reflexivity.
Qed.

End Component.

Lemma buildContext_of_a_date_witness :
  exists ctx,
    buildContext Doubles.props_lax_jfk = Returns ctx
    /\ opt_get (opt_get ctx "flight") "date" = VStr "2025-01-02".
Proof.
  destruct (buildContext_of_a_date Doubles.props_lax_jfk
              "2025-01-02T10:00:00.000Z" eq_refl)
    as (ctx & Hctx & Hdate & _).
  exists ctx. split; [exact Hctx | exact Hdate].
Defined.

Lemma unbuildable_context_ends_in_catch_witness :
  provider (snd (snd (generate Doubles.window_without_ai Doubles.route_down
                        Doubles.props_invalid_date "advice" ([], initial))))
  = VStr "error".
Proof.
  exact (proj1 (proj2 (proj2
    (unbuildable_context_ends_in_catch
       Doubles.window_without_ai Doubles.route_down
       Doubles.props_invalid_date "advice" [] initial
       "RangeError: Invalid time value" eq_refl)))).
Defined.

Lemma failed_route_ends_in_catch_witness :
  advice (snd (snd (generate Doubles.window_without_ai Doubles.route_405
                      Doubles.props_lax_jfk "advice" ([], initial))))
  = unable_text.
Proof.
  refine (f_equal (fun r => advice (snd (snd r)))
            (failed_route_ends_in_catch
               Doubles.window_without_ai Doubles.route_405
               Doubles.props_lax_jfk "advice" [] initial
               Doubles.context_lax_jfk _ _ _)).
  - reflexivity.
  - left. reflexivity.
  - right. eexists. split; [reflexivity|]. right. reflexivity.
Defined.

Lemma served_advisory_is_shown_witness :
  provider (snd (snd (generate Doubles.window_without_ai
                        (Doubles.route_of Doubles.env_no_key
                           Doubles.fetch_down Doubles.first_click_request)
                        Doubles.props_lax_jfk "advice" ([], initial))))
  = VStr "stub".
Proof.
  refine (f_equal (fun r => provider (snd (snd r)))
            (served_advisory_is_shown
               Doubles.window_without_ai
               (Doubles.route_of Doubles.env_no_key
                  Doubles.fetch_down Doubles.first_click_request)
               Doubles.props_lax_jfk "advice" [] initial
               Doubles.context_lax_jfk Doubles.env_no_key
               Doubles.fetch_down Doubles.first_click_request []
               _ _ "stub" _ _ _ _ _ _ _)).
  - reflexivity.
  - left. reflexivity.
  - reflexivity.
  - reflexivity.
  - reflexivity.
  - reflexivity.
Defined.

Lemma nothing_to_translate_before_an_advisory_witness :
  fst (session (Doubles.window_with "readily"
                  (Doubles.session_answering (VStr "Pack an umbrella.")))
         Doubles.route_down Doubles.props_lax_jfk
         [ClickTranslate; SelectLanguage "fr"; ClickRewrite])
  = [CanCreateTextSession].
Proof.
  exact (proj1 (nothing_to_translate_before_an_advisory
                  (Doubles.window_with "readily"
                     (Doubles.session_answering (VStr "Pack an umbrella.")))
                  Doubles.route_down Doubles.props_lax_jfk
                  [ClickTranslate; SelectLanguage "fr"; ClickRewrite]
                  eq_refl)).
Defined.

(** *** The provider badge of a served advisory *)

Lemma startsWith_empty s : startsWith s "" = true.
Proof. now destruct s. Qed.

(** For what the server route answers to a POST, the provider badge is
    the Server badge exactly when a candidate of the cascade answered, and
    the Demo badge for each of the three stub exits; it is never the
    on-device badge. *)
Theorem served_badge_tells_the_tier env fetch req log res text tag errorInfo :
  Server.method req = "POST"%string ->
  fst (Server.handler env fetch req log) = Returns res ->
  Server.json res = Server.AdvisoryPayload text tag errorInfo ->
  (badge (VStr tag) = Returns (Some ServerBadge)
   /\ exists ver model,
        In (ver, model) (Server.candidates env)
        /\ tag = ("gemini:" ++ ver ++ ":" ++ model)%string)
  \/ (badge (VStr tag) = Returns (Some DemoBadge)
      /\ (tag = "stub" \/ tag = "stub-fallback" \/ tag = "stub-error")%string).
Proof.
  intros Hm Hres Hj.
  destruct (@ServerMore.handler_tag env fetch req log res Hm Hres)
    as (_ & text' & tag' & ei' & Hj' & Htag).
  rewrite Hj in Hj'. injection Hj' as _ <- _.
  destruct Htag as [(Hstub & _) | (ver & model & Hin & ->)].
  - right. split; [|exact Hstub].
    destruct Hstub as [-> | [-> | ->]]; reflexivity.
  - left. split; [|now exists ver, model].
    unfold badge. cbn. now rewrite startsWith_empty.
Qed.

Lemma served_badge_tells_the_tier_witness :
  badge (VStr "stub") = Returns (Some DemoBadge).
Proof.
  destruct (served_badge_tells_the_tier
              Doubles.env_no_key Doubles.fetch_down Doubles.post_advice []
              _ _ "stub" _ eq_refl eq_refl eq_refl)
    as [(_ & ver & model & _ & Habs) | (H & _)].
  - discriminate Habs.
  - exact H.
Defined.

End ClientMore.

(* ================================================================== *)
(** ** More about the page: the weather handed to the advisor *)
(* ================================================================== *)

Module PageFacts.
Import JS Page.
Local Open Scope list_scope.

Section FetchWeather.

Variable fetch : Log -> FetchRequest -> Outcome FetchResponse.

Local Ltac unfold_fetchWeather :=
  unfold fetchWeather, try_catch, bind, setWxError, setter, call_fetch,
    await, throw, ret; cbn [fst snd wxError delivered].

(** [fetchWeather] never throws and calls [setter] exactly once.  It
    calls the weather route once, for a non-empty code only, with the code
    percent-encoded.  It ends either with no error and the body's
    [weather || null] delivered, which takes an ok response with a JSON
    body, or with a non-empty error message and [null] delivered. *)
Theorem fetchWeather_delivers_once iata log st :
  let res := fetchWeather fetch iata (log, st) in
  fst res = Returns tt
  /\ fst (snd res)
     = log ++ (if is_empty iata then [] else [weather_request iata])
  /\ exists wx,
       delivered (snd (snd res)) = delivered st ++ [wx]
       /\ ((wxError (snd (snd res)) = None
            /\ (is_empty iata = true /\ wx = VNull
                \/ exists r data weather,
                     fetch log (weather_request iata) = Returns r
                     /\ r_ok r = true
                     /\ r_json r = Returns data
                     /\ get data "weather" = Returns weather
                     /\ wx = or_else weather VNull))
           \/ (exists message,
                 wxError (snd (snd res)) = Some message
                 /\ message <> ""%string
                 /\ wx = VNull)).
Proof.
  cbv zeta.
  assert (Hmsg : forall e,
            (if is_empty e then "Weather fetch failed" else e) <> ""%string).
  { intros e. unfold is_empty. destruct (String.eqb_spec e ""); congruence. }
  unfold_fetchWeather.
  destruct (is_empty iata) eqn:Hi; cbn [fst snd wxError delivered].
  - rewrite app_nil_r. repeat split. exists VNull. split; [reflexivity|].
    left. split; [reflexivity|]. now left.
  - destruct (fetch log (weather_request iata)) as [r|e] eqn:Hf;
      cbn [fst snd wxError delivered].
    + destruct (r_json r) as [data|e] eqn:Hj; cbn [fst snd wxError delivered].
      * destruct (r_ok r) eqn:Hok; cbn [negb fst snd wxError delivered].
        -- destruct (get data "weather") as [weather|e] eqn:Hg;
             cbn [fst snd wxError delivered].
           ++ repeat split. eexists. split; [reflexivity|].
              left. split; [reflexivity|]. right.
              exists r, data, weather. now repeat split.
           ++ repeat split. exists VNull. split; [reflexivity|].
              right. eexists. split; [reflexivity|]. now split.
        -- destruct (to_String _) as [m|e]; cbn [fst snd wxError delivered];
             repeat split; exists VNull; (split; [reflexivity|]);
             right; eexists; (split; [reflexivity|]); now split.
      * repeat split. exists VNull. split; [reflexivity|].
        right. eexists. split; [reflexivity|]. now split.
    + repeat split. exists VNull. split; [reflexivity|].
      right. eexists. split; [reflexivity|]. now split.
Qed.

(** When the weather route answers with a failing status and a JSON body
    whose [error] is a non-empty string, that string becomes the page's
    weather error and [null] is delivered; the body's [weather], if any, is
    not read. *)
Theorem weather_error_is_the_route_s_message iata log st r data message :
  is_empty iata = false ->
  fetch log (weather_request iata) = Returns r ->
  r_ok r = false ->
  r_json r = Returns data ->
  opt_get data "error" = VStr message ->
  message <> ""%string ->
  fetchWeather fetch iata (log, st)
  = (Returns tt,
     (log ++ [weather_request iata],
      {| wxError := Some message; delivered := delivered st ++ [VNull] |})).
Proof.
  intros Hi Hf Hok Hj He Hm.
  assert (Hne : is_empty message = false).
  { unfold is_empty. now destruct (String.eqb_spec message ""). }
  unfold_fetchWeather. rewrite Hi. cbn [fst snd]. rewrite Hf. cbn [fst snd].
  rewrite Hj, Hok. cbn [negb]. rewrite He. unfold or_else.
  cbn [truthy]. fold (is_empty message). rewrite Hne. cbn [negb to_String].
  cbn [fst snd wxError delivered]. now rewrite Hne.
Qed.

End FetchWeather.

Lemma weather_error_is_the_route_s_message_witness :
  wxError (snd (snd (fetchWeather
                       (Doubles.weather_route false 404
                          (VObj [("error", VStr "Unknown airport")]))
                       "ZZZ" ([], {| wxError := None; delivered := [] |}))))
  = Some "Unknown airport"%string.
Proof.
  refine (f_equal (fun r => wxError (snd (snd r)))
            (weather_error_is_the_route_s_message
               (Doubles.weather_route false 404
                  (VObj [("error", VStr "Unknown airport")]))
               "ZZZ" [] {| wxError := None; delivered := [] |}
               _ (VObj [("error", VStr "Unknown airport")])
               "Unknown airport" eq_refl eq_refl eq_refl eq_refl eq_refl _)).
  discriminate.
Defined.

End PageFacts.
